(** * Airwise Express backend: the reading reconciliation engine of server.js

    A shallow embedding of [src/server.js]: the validator, the two
    process-local counters, the weighted-average reconciler, the null-filling
    pass over a retrieved batch and the two request handlers, followed by the
    theorems that settle the specification's claims on them.

    Modelling choices.
    - A JavaScript number is a rational ([Qc], exact arithmetic) or [NaN]. The
      handlers only add, multiply, halve and divide by a positive weight, so no
      infinity arises. Every concrete evaluation below uses small integers and
      halves, which IEEE-754 doubles represent exactly.
    - A JavaScript value, as far as the handlers see one in a quantity field,
      is [undefined], [null] or a number.
    - The two counter objects are plain object literals used as maps: a finite
      map of their own properties, read through [Object.prototype], whose
      property names are fixed. The rest-properties object [sensorData] is the
      finite map of its own properties.
    - The Prisma client is an external collaborator: a handler receives it as a
      record of functions giving the outcome of each query, and returns the
      list of queries it issued together with the response and the counters. *)

From Stdlib Require Import QArith Qcanon Qround Lqa.
From stdpp Require Import gmap strings list fin_maps.

Local Open Scope Z_scope.

(** ** JavaScript values *)

Module JS.

Inductive number := Num (q : Qc) | NaN.

Inductive value := Undefined | Null | Number (n : number).

#[global] Instance number_eq_dec : EqDecision number.
Proof. solve_decision. Defined.

#[global] Instance value_eq_dec : EqDecision value.
Proof. solve_decision. Defined.

Definition int (z : Z) : value := Number (Num (Qc_of_Z z)).

Definition of_nat (k : nat) : number := Num (Qc_of_Z (Z.of_nat k)).

(** ToNumber: [null] is 0 and [undefined] is NaN. *)
Definition ToNumber (v : value) : number :=
  match v with
  | Undefined => NaN
  | Null => Num 0%Qc
  | Number n => n
  end.

Definition add (a b : number) : number :=
  match a, b with
  | Num x, Num y => Num (x + y)%Qc
  | _, _ => NaN
  end.

Definition mul (a b : number) : number :=
  match a, b with
  | Num x, Num y => Num (x * y)%Qc
  | _, _ => NaN
  end.

(** Division. The handlers divide by 2 or by a total weight that was just
    tested positive; a zero divisor is mapped to [NaN] and never reached. *)
Definition div (a b : number) : number :=
  match a, b with
  | Num x, Num y => if decide (y = 0%Qc) then NaN else Num (x / y)%Qc
  | _, _ => NaN
  end.

(** [a >= b] and [a <= b]: false as soon as one side is NaN. *)
Definition ge (a b : number) : bool :=
  match a, b with
  | Num x, Num y => bool_decide (y ≤ x)%Qc
  | _, _ => false
  end.

Definition le (a b : number) : bool :=
  match a, b with
  | Num x, Num y => bool_decide (x ≤ y)%Qc
  | _, _ => false
  end.

(** [v === null || v === undefined] *)
Definition nullish (v : value) : bool :=
  match v with
  | Undefined | Null => true
  | Number _ => false
  end.

(** ToBoolean *)
Definition truthy (v : value) : bool :=
  match v with
  | Undefined | Null => false
  | Number NaN => false
  | Number (Num q) => negb (bool_decide (q = 0%Qc))
  end.

(** [a ?? b] *)
Definition coalesce (a b : value) : value :=
  if nullish a then b else a.

(** An identifier-valued property of the request ([device_id], [client_id])
    or of a row ([clientId]): missing, [null], or a string. *)
Inductive ident := IdUndefined | IdNull | IdString (s : string).

#[global] Instance ident_eq_dec : EqDecision ident.
Proof. solve_decision. Defined.

Definition truthy_ident (i : ident) : bool :=
  match i with
  | IdString s => negb (bool_decide (s = ""%string))
  | _ => false
  end.

(** ToPropertyKey, as applied by [obj[i]]. *)
Definition propertyKey (i : ident) : string :=
  match i with
  | IdUndefined => "undefined"
  | IdNull => "null"
  | IdString s => s
  end.

(** [obj.k] on an object held as a map of its own properties. *)
Definition get (obj : gmap string value) (k : string) : value :=
  default Undefined (obj !! k).

(** [Object.values(obj)] *)
Definition values (obj : gmap string value) : list value :=
  (map_to_list obj).*2.

(** The property names that every plain object inherits from
    [Object.prototype]: eleven methods and the accessor [__proto__]. *)
Definition inherited (k : string) : bool :=
  bool_decide (k ∈ ["constructor"; "__defineGetter__"; "__defineSetter__";
                    "hasOwnProperty"; "__lookupGetter__"; "__lookupSetter__";
                    "isPrototypeOf"; "propertyIsEnumerable"; "toString";
                    "valueOf"; "__proto__"; "toLocaleString"]%string).

(** What [obj[k]] finds in an object literal that is used as a map and only
    written through [obj[k] = a]: an own property, else an inherited function
    or, for [__proto__], the prototype object itself (both truthy, neither a
    number), else nothing. *)
Inductive property (A : Type) :=
  | Own (a : A)
  | Inherited
  | Missing.
Arguments Own {A} a.
Arguments Inherited {A}.
Arguments Missing {A}.

Definition read {A : Type} (obj : gmap string A) (k : string) : property A :=
  if bool_decide (k = "__proto__"%string) then Inherited
  else match obj !! k with
       | Some a => Own a
       | None => if inherited k then Inherited else Missing
       end.

(** [obj[k] = a] for a value [a] that is not an object: an own property is
    created or replaced, except that the setter of [__proto__] ignores it. *)
Definition write {A : Type} (k : string) (a : A) (obj : gmap string A)
  : gmap string A :=
  if bool_decide (k = "__proto__"%string) then obj else <[k := a]> obj.

End JS.

(** ** Validator (server.js, lines 37-49) *)

Definition isValid (v : JS.value) (min max : Z) : bool :=
  match v with
  | JS.Null => true
  | JS.Undefined => true
  | JS.Number n =>
      JS.ge n (JS.Num (Qc_of_Z min)) && JS.le n (JS.Num (Qc_of_Z max))
  end.

Definition validateSensorData (data : gmap string JS.value) : bool :=
  isValid (JS.get data "temperature") (-50) 50 &&
  isValid (JS.get data "humidity") 0 100 &&
  isValid (JS.get data "pm25") 0 500 &&
  isValid (JS.get data "pm10") 0 500 &&
  isValid (JS.get data "co2") 0 5000 &&
  isValid (JS.get data "tvoc") 0 1000.

(** ** The unused pairwise resolver (server.js, lines 52-67) *)

Definition resolveValue (existing incoming : JS.value) : JS.value :=
  if JS.nullish existing then incoming
  else if JS.nullish incoming then existing
  else JS.Number (JS.div (JS.add (JS.ToNumber existing) (JS.ToNumber incoming))
                         (JS.Num (Qc_of_Z 2))).

Record Values := {
  temperature : JS.value;
  humidity : JS.value;
  pm25 : JS.value;
  pm10 : JS.value;
  co2 : JS.value;
  tvoc : JS.value
}.

#[global] Instance Values_eq_dec : EqDecision Values.
Proof. solve_decision. Defined.

Definition resolveConflicts (existingReading newReading : Values) : Values :=
  {| temperature :=
       resolveValue (temperature existingReading) (temperature newReading);
     humidity := resolveValue (humidity existingReading) (humidity newReading);
     pm25 := resolveValue (pm25 existingReading) (pm25 newReading);
     pm10 := resolveValue (pm10 existingReading) (pm10 newReading);
     co2 := resolveValue (co2 existingReading) (co2 newReading);
     tvoc := resolveValue (tvoc existingReading) (tvoc newReading) |}.

(** ** ReliabilityTracker (server.js, lines 69-93) *)

Record PN := { p : nat; n : nat }.

#[global] Instance PN_eq_dec : EqDecision PN.
Proof. solve_decision. Defined.

(** A number held by the client counter object: a count, or NaN. *)
Inductive count := Count (k : nat) | CountNaN.

#[global] Instance count_eq_dec : EqDecision count.
Proof. solve_decision. Defined.

Record Counters := {
  clientReadingsCounter : gmap string count;
  deviceReadingsCounter : gmap string PN
}.

#[global] Instance Counters_eq_dec : EqDecision Counters.
Proof. solve_decision. Defined.

Definition no_counters : Counters :=
  {| clientReadingsCounter := ∅; deviceReadingsCounter := ∅ |}.

(** [if (!c[id]) c[id] = 0; c[id]++]. An inherited function or object is
    truthy, so the reset is skipped for it, and [++] on it computes NaN. *)
Definition updateGCounter (clientId : string) (c : gmap string count)
  : gmap string count :=
  let c0 := match JS.read c clientId with
            | JS.Own (Count (S _)) | JS.Inherited => c
            | JS.Own (Count O) | JS.Own CountNaN | JS.Missing =>
                JS.write clientId (Count O) c
            end in
  match JS.read c0 clientId with
  | JS.Own (Count k) => JS.write clientId (Count (S k)) c0
  | JS.Own CountNaN | JS.Inherited | JS.Missing =>
      JS.write clientId CountNaN c0
  end.

(** [if (!d[id]) d[id] = { p: 0, n: 0 }; d[id].p++] (or [n++]). For an
    inherited name no entry is created and the increment lands on the
    inherited object, whose [p] or [n] becomes NaN: the own properties stay as
    they are. That NaN is falsy wherever the handlers read it, so it is not
    kept in the state. *)
Definition updatePNCounter (deviceId : string) (increment : bool)
    (d : gmap string PN) : gmap string PN :=
  let d0 := match JS.read d deviceId with
            | JS.Missing => <[deviceId := {| p := 0; n := 0 |}]> d
            | JS.Own _ | JS.Inherited => d
            end in
  match JS.read d0 deviceId with
  | JS.Own c =>
      <[deviceId := if increment
                    then {| p := S (p c); n := n c |}
                    else {| p := p c; n := S (n c) |}]> d0
  | JS.Inherited | JS.Missing => d0
  end.

(** The value of [clientReadingsCounter[clientId] || 1] (line 101): a
    positive number, or the inherited function or object itself. *)
Inductive Weight := WeightNumber (w : nat) | WeightObject.

#[global] Instance Weight_eq_dec : EqDecision Weight.
Proof. solve_decision. Defined.

Definition weightOf (c : gmap string count) (clientId : string) : Weight :=
  match JS.read c clientId with
  | JS.Own (Count (S k)) => WeightNumber (S k)
  | JS.Own (Count O) | JS.Own CountNaN | JS.Missing => WeightNumber 1
  | JS.Inherited => WeightObject
  end.

(** [(d[id]?.p || 0) - (d[id]?.n || 0)] (line 261): on an inherited object
    [p] and [n] are absent or NaN. *)
Definition totalFor (d : gmap string PN) (deviceId : string) : Z :=
  match JS.read d deviceId with
  | JS.Own c => Z.of_nat (p c) - Z.of_nat (n c)
  | JS.Inherited | JS.Missing => 0
  end.

(** ** Weighted average (server.js, lines 96-107) *)

Record Contribution := { value : JS.value; clientId : JS.ident }.

(** [totalWeight += weight]: adding an object to a number concatenates
    strings, and the result never reads as a number again ([None]). *)
Definition addWeight (totalWeight : option nat) (weight : Weight)
  : option nat :=
  match totalWeight, weight with
  | Some t, WeightNumber w => Some (t + w)%nat
  | _, _ => None
  end.

(** The weight as a factor of [value * weight]: an object converts to NaN. *)
Definition weightFactor (weight : Weight) : JS.number :=
  match weight with
  | WeightNumber w => JS.of_nat w
  | WeightObject => JS.NaN
  end.

Definition calculateWeightedAverage (c : gmap string count)
    (readings : list Contribution) : JS.value :=
  let '(totalWeight, weightedSum) :=
    foldl (fun '(totalWeight, weightedSum) r =>
             let weight := weightOf c (JS.propertyKey (clientId r)) in
             (addWeight totalWeight weight,
              JS.add weightedSum
                     (JS.mul (JS.ToNumber (value r)) (weightFactor weight))))
          (Some O, JS.Num 0%Qc) readings in
  match totalWeight with
  | Some t =>
      if bool_decide (0 < t)%nat
      then JS.Number (JS.div weightedSum (JS.of_nat t))
      else JS.Null
  | None => JS.Null
  end.

(** ** Simulation data (server.js, lines 110-119)

    [Math.random()] is an input: six draws from [0, 1). [toFixed f] rounds to
    [f] decimals, a tie going to the larger value. *)

Definition toFixed (f : nat) (x : Qc) : Qc :=
  let scale := (10 ^ Z.of_nat f)%Z in
  Q2Qc (Qmake (Qfloor (x * Qc_of_Z scale + Q2Qc (1 # 2))%Qc)
              (Z.to_pos scale)).

Record Draws := { r1 : Qc; r2 : Qc; r3 : Qc; r4 : Qc; r5 : Qc; r6 : Qc }.

Definition generateDummyData (rnd : Draws) : Values :=
  let draw (base span : Z) (digits : nat) (r : Qc) : JS.value :=
    JS.Number (JS.Num (toFixed digits (Qc_of_Z base + r * Qc_of_Z span)%Qc)) in
  {| temperature := draw 20 10 2%nat (r1 rnd);
     humidity := draw 40 30 2%nat (r2 rnd);
     pm25 := draw 5 30 2%nat (r3 rnd);
     pm10 := draw 10 40 2%nat (r4 rnd);
     co2 := draw 400 600 0%nat (r5 rnd);
     tvoc := draw 50 250 0%nat (r6 rnd) |}.

(** ** Rows and the Prisma client

    A [SensorReading] is a row object as the handlers hold it: the columns of
    [prisma/schema.prisma], the key [deviceIdRef] that the handlers delete and
    the key [device_id] that they add before answering, and what the
    expression [row.clientId] evaluates to. The schema has no such column, so
    a row produced by Prisma carries [IdUndefined] there. *)

Record SensorReading := {
  id : Z;
  deviceIdRef : option Z;
  device_id_of : option string;
  timestamp : Z;
  clientTimestamp : option string;
  quantities : Values;
  row_clientId : JS.ident
}.

#[global] Instance SensorReading_eq_dec : EqDecision SensorReading.
Proof. solve_decision. Defined.

Record Device := { device_pk : Z; deviceId : string }.

(** The argument of [prisma.sensorReading.create]: what its keys
    [deviceIdRef] and [clientTimestamp] hold, and the spread of
    [resolvedData] with [pm25] written over it. The spread comes after the
    two keys, so a body property named like one of them replaces it. *)
Inductive ClientTimestamp :=
  | DateOf (s : string)
  | NoDate
  | FromBody (v : JS.value).

#[global] Instance ClientTimestamp_eq_dec : EqDecision ClientTimestamp.
Proof. solve_decision. Defined.

Record CreateData := {
  data_deviceIdRef : JS.value;
  data_clientTimestamp : ClientTimestamp;
  data_fields : gmap string JS.value
}.

#[global] Instance CreateData_eq_dec : EqDecision CreateData.
Proof. solve_decision. Defined.

Inductive outcome (A : Type) :=
  | Returned (a : A)
  | Thrown (message : string).
Arguments Returned {A} a.
Arguments Thrown {A} message.

Record Prisma := {
  device_upsert : JS.ident → outcome Device;
  (** [findMany] of the ingestion path: device and lower bound on [timestamp] *)
  sensorReading_findRecent : JS.ident → Z → outcome (list SensorReading);
  sensorReading_create : CreateData → outcome SensorReading;
  (** [findMany] of the retrieval path: device and [take] *)
  sensorReading_findMany : string → Z → outcome (list SensorReading)
}.

Inductive Query :=
  | QUpsert (device_id : JS.ident)
  | QFindRecent (device_id : JS.ident) (gte : Z)
  | QCreate (data : CreateData)
  | QFindMany (deviceId : string) (take : Z).

#[global] Instance Query_eq_dec : EqDecision Query.
Proof. solve_decision. Defined.

Inductive Response :=
  | Json400 (error : string)
  | Json201 (responseReading : SensorReading)
  | Json500 (error details : string)
  | Json200Simulation (message : string) (simulatedData : Values)
  | Json404 (error : string)
  | Json200 (responseReadings : list SensorReading).

#[global] Instance Response_eq_dec : EqDecision Response.
Proof. solve_decision. Defined.

(** [{ ...r, device_id: d }] followed by [delete r.deviceIdRef] *)
Definition withDeviceId (d : string) (r : SensorReading) : SensorReading :=
  {| id := id r;
     deviceIdRef := None;
     device_id_of := Some d;
     timestamp := timestamp r;
     clientTimestamp := clientTimestamp r;
     quantities := quantities r;
     row_clientId := row_clientId r |}.

(** ** POST /readings (server.js, lines 122-234)

    [Body] is the request body after the destructuring of line 123: the four
    named properties and the rest object [sensorData], which holds every other
    property of the body, the six quantities among them. *)

Record Body := {
  device_id : JS.ident;
  client_id : JS.ident;
  pm2_5 : JS.value;
  client_timestamp : option string;
  sensorData : gmap string JS.value
}.

(** Lines 169-201: the value set to store, given the result of the window
    query and the client counters as they stand after [updateGCounter]. *)
Definition resolvedData (c : gmap string count)
    (recentReadings : list SensorReading) (client_id : JS.ident)
    (sensorData : gmap string JS.value) : gmap string JS.value :=
  match recentReadings with
  | [] => sensorData
  | latestReading :: _ =>
      let merge (latest : JS.value) (key : string) : JS.value :=
        calculateWeightedAverage c
          [ {| value := latest; clientId := row_clientId latestReading |};
            {| value := JS.get sensorData key; clientId := client_id |} ] in
      let q := quantities latestReading in
      <["tvoc" := merge (tvoc q) "tvoc"]>
      (<["co2" := merge (co2 q) "co2"]>
      (<["pm10" := merge (pm10 q) "pm10"]>
      (<["pm25" := merge (pm25 q) "pm25"]>
      (<["humidity" := merge (humidity q) "humidity"]>
      (<["temperature" := merge (temperature q) "temperature"]>
       sensorData)))))
  end.

(** Lines 205-211: the device's id and
    [client_timestamp ? new Date(client_timestamp) : null], then the spread of
    [resolvedData], which replaces either when it has a property of that
    name, then [pm25: pm2_5]. *)
Definition createData (device : Device) (body : Body)
    (resolved : gmap string JS.value) : CreateData :=
  {| data_deviceIdRef :=
       match resolved !! "deviceIdRef" with
       | Some v => v
       | None => JS.int (device_pk device)
       end;
     data_clientTimestamp :=
       match resolved !! "clientTimestamp" with
       | Some v => FromBody v
       | None =>
           match client_timestamp body with
           | Some s => if bool_decide (s = ""%string) then NoDate else DateOf s
           | None => NoDate
           end
       end;
     data_fields := <["pm25" := pm2_5 body]> resolved |}.

Definition window_ms : Z := 5 * 60 * 1000.

Definition post_readings (prisma : Prisma) (now : Z) (body : Body)
    (st : Counters) : Response * Counters * list Query :=
  if negb (JS.truthy_ident (device_id body)) then
    (Json400 "Missing device_id field.", st, [])
  else if forallb JS.nullish (JS.values (sensorData body))
          && negb (JS.truthy (pm2_5 body)) then
    (Json400 "Received reading data contains no sensor values.", st, [])
  else if negb (validateSensorData (sensorData body)) then
    (Json400 "Invalid sensor data.", st, [])
  else
    let st' :=
      {| clientReadingsCounter :=
           updateGCounter (JS.propertyKey (client_id body))
                          (clientReadingsCounter st);
         deviceReadingsCounter :=
           updatePNCounter (JS.propertyKey (device_id body)) true
                           (deviceReadingsCounter st) |} in
    let failed (message : string) :=
      Json500 "Failed to store sensor reading." message in
    let q1 := QUpsert (device_id body) in
    match device_upsert prisma (device_id body) with
    | Thrown message => (failed message, st', [q1])
    | Returned device =>
        let q2 := QFindRecent (device_id body) (now - window_ms) in
        match sensorReading_findRecent prisma (device_id body)
                (now - window_ms) with
        | Thrown message => (failed message, st', [q1; q2])
        | Returned recentReadings =>
            let data :=
              createData device body
                (resolvedData (clientReadingsCounter st') recentReadings
                              (client_id body) (sensorData body)) in
            let q3 := QCreate data in
            match sensorReading_create prisma data with
            | Thrown message => (failed message, st', [q1; q2; q3])
            | Returned newReading =>
                (Json201 (withDeviceId (JS.propertyKey (device_id body))
                                       newReading),
                 st', [q1; q2; q3])
            end
        end
    end.

(** ** GET /readings/device/:deviceId (server.js, lines 237-304) *)

(** Lines 240-243; [None] stands for the NaN that [parseInt] returns on a
    missing or non-numeric parameter. *)
Definition clampLimit (parsed : option Z) : Z :=
  match parsed with
  | None => 10
  | Some limit => if (limit <=? 0) || (1000 <? limit) then 10 else limit
  end.

(** Lines 274-288. [arr[index - 1]] and [arr[index + 1]] exist at every index
    that is neither the first nor the last. *)
Definition interpolatedReadings (readings : list SensorReading)
  : list SensorReading :=
  imap (fun index reading =>
    if (index =? 0)%nat || (index + 1 =? length readings)%nat then reading
    else
      match readings !! (index - 1)%nat, readings !! (index + 1)%nat with
      | Some prev, Some next =>
          let fill (field : Values → JS.value) : JS.value :=
            JS.coalesce (field (quantities reading))
              (JS.Number
                 (JS.div (JS.add (JS.ToNumber (field (quantities prev)))
                                 (JS.ToNumber (field (quantities next))))
                         (JS.Num (Qc_of_Z 2)))) in
          {| id := id reading;
             deviceIdRef := deviceIdRef reading;
             device_id_of := device_id_of reading;
             timestamp := timestamp reading;
             clientTimestamp := clientTimestamp reading;
             quantities :=
               {| temperature := fill temperature;
                  humidity := fill humidity;
                  pm25 := fill pm25;
                  pm10 := fill pm10;
                  co2 := fill co2;
                  tvoc := fill tvoc |};
             row_clientId := row_clientId reading |}
      | _, _ => reading
      end) readings.

Definition get_readings (prisma : Prisma) (rnd : Draws) (deviceId : string)
    (parsedLimit : option Z) (st : Counters) : Response * list Query :=
  let limit := clampLimit parsedLimit in
  let q := QFindMany deviceId limit in
  match sensorReading_findMany prisma deviceId limit with
  | Thrown message =>
      (Json500 "Failed to retrieve sensor readings." message, [q])
  | Returned readings =>
      let totalReadings := totalFor (deviceReadingsCounter st) deviceId in
      if totalReadings <? 5 then
        (Json200Simulation "Insufficient data. Switching to simulation mode."
                           (generateDummyData rnd), [q])
      else if (length readings =? 0)%nat then
        (Json404 "No data available for this device.", [q])
      else
        (Json200 (withDeviceId deviceId <$> interpolatedReadings readings),
         [q])
  end.

(** ** The earlier server (src/unnamed/part_000)

    The earlier version of the two handlers: no validator, no counters, no
    reconciliation, no simulation and no null filling. Its destructuring
    (line 38) does not name [client_id], so a [client_id] of the body stays
    in the rest object whose values the emptiness test inspects. An array is
    truthy, whatever its length. *)

Module V0.

Definition emptyPayload (body : Body) : bool :=
  match client_id body with
  | JS.IdString _ => false
  | JS.IdUndefined | JS.IdNull =>
      forallb JS.nullish (JS.values (sensorData body))
  end
  && negb (JS.truthy (pm2_5 body)).

(** Lines 65-75: the six columns are named one by one. *)
Definition createData (device : Device) (body : Body) : CreateData :=
  let sd := sensorData body in
  {| data_deviceIdRef := JS.int (device_pk device);
     data_clientTimestamp :=
       match client_timestamp body with
       | Some s => if bool_decide (s = ""%string) then NoDate else DateOf s
       | None => NoDate
       end;
     data_fields :=
       <["tvoc" := JS.get sd "tvoc"]>
       (<["co2" := JS.get sd "co2"]>
       (<["pm10" := JS.get sd "pm10"]>
       (<["pm25" := pm2_5 body]>
       (<["humidity" := JS.get sd "humidity"]>
       (<["temperature" := JS.get sd "temperature"]> ∅))))) |}.

Definition post_readings (prisma : Prisma) (body : Body)
  : Response * list Query :=
  if negb (JS.truthy_ident (device_id body)) then
    (Json400 "Missing device_id field.", [])
  else if emptyPayload body then
    (Json400 "Received reading data contains no sensor values.", [])
  else
    let q1 := QUpsert (device_id body) in
    match device_upsert prisma (device_id body) with
    | Thrown message =>
        (Json500 "Failed to store sensor reading." message, [q1])
    | Returned device =>
        let data := createData device body in
        match sensorReading_create prisma data with
        | Thrown message =>
            (Json500 "Failed to store sensor reading." message,
             [q1; QCreate data])
        | Returned newReading =>
            (Json201 (withDeviceId (JS.propertyKey (device_id body))
                                   newReading),
             [q1; QCreate data])
        end
    end.

(** [!readings] on the array that [findMany] returns. *)
Definition not_array (readings : list SensorReading) : bool := false.

Definition get_readings (prisma : Prisma) (deviceId : string)
    (parsedLimit : option Z) : Response * list Query :=
  let limit := clampLimit parsedLimit in
  let q := QFindMany deviceId limit in
  match sensorReading_findMany prisma deviceId limit with
  | Thrown message =>
      (Json500 "Failed to retrieve sensor readings." message, [q])
  | Returned readings =>
      if not_array readings then
        (Json404 ("No readings found for device ID '" +:+ deviceId
                  +:+ "' or device does not exist."), [q])
      else (Json200 (withDeviceId deviceId <$> readings), [q])
  end.

End V0.

(** ** Concrete requests, rows and clients used to evaluate the handlers *)

Module Example.

Definition device : Device := {| device_pk := 1; deviceId := "dev-1" |}.

Definition values_of (t h : JS.value) : Values :=
  {| temperature := t; humidity := h; pm25 := JS.Null; pm10 := JS.Null;
     co2 := JS.Null; tvoc := JS.Null |}.

(** A stored row of device 1 with the given temperature and humidity. *)
Definition row (pk : Z) (t h : JS.value) : SensorReading :=
  {| id := pk; deviceIdRef := Some 1; device_id_of := None;
     timestamp := 900000; clientTimestamp := None;
     quantities := values_of t h; row_clientId := JS.IdUndefined |}.

(** The row a successful [create] answers with: a column left [undefined]
    in the data is stored as NULL. *)
Definition created (data : CreateData) : SensorReading :=
  let col (k : string) := JS.coalesce (JS.get (data_fields data) k) JS.Null in
  {| id := 7;
     deviceIdRef := match data_deviceIdRef data with
                    | JS.Number (JS.Num q) => Some (Qfloor q)
                    | _ => None
                    end;
     device_id_of := None; timestamp := 1000000;
     clientTimestamp := match data_clientTimestamp data with
                        | DateOf s => Some s
                        | _ => None
                        end;
     quantities :=
       {| temperature := col "temperature"; humidity := col "humidity";
          pm25 := col "pm25"; pm10 := col "pm10"; co2 := col "co2";
          tvoc := col "tvoc" |};
     row_clientId := JS.IdUndefined |}.

(** A client whose queries succeed: [recent] answers the window query and
    [batch] the retrieval query. *)
Definition prisma_ok (recent batch : list SensorReading) : Prisma :=
  {| device_upsert := λ _, Returned device;
     sensorReading_findRecent := λ _ _, Returned recent;
     sensorReading_create := λ data, Returned (created data);
     sensorReading_findMany := λ _ _, Returned batch |}.

(** Clients whose first, second or third ingestion query throws. *)
Definition prisma_down : Prisma :=
  {| device_upsert := λ _, Thrown "connection refused";
     sensorReading_findRecent := λ _ _, Thrown "connection refused";
     sensorReading_create := λ _, Thrown "connection refused";
     sensorReading_findMany := λ _ _, Thrown "connection refused" |}.

Definition prisma_no_find : Prisma :=
  {| device_upsert := λ _, Returned device;
     sensorReading_findRecent := λ _ _, Thrown "query timed out";
     sensorReading_create := λ data, Returned (created data);
     sensorReading_findMany := λ _ _, Returned [] |}.

Definition prisma_no_create : Prisma :=
  {| device_upsert := λ _, Returned device;
     sensorReading_findRecent := λ _ _, Returned [];
     sensorReading_create := λ _, Thrown "insert failed";
     sensorReading_findMany := λ _ _, Returned [] |}.

(** A submission of device dev-1 by client app-1 with the given legacy
    [pm2_5] and remaining properties. *)
Definition body (alias : JS.value) (rest : gmap string JS.value) : Body :=
  {| device_id := JS.IdString "dev-1"; client_id := JS.IdString "app-1";
     pm2_5 := alias; client_timestamp := None; sensorData := rest |}.

Definition now : Z := 1000000.

Definition draws : Draws :=
  {| r1 := 0%Qc; r2 := 0%Qc; r3 := 0%Qc; r4 := 0%Qc; r5 := 0%Qc;
     r6 := 0%Qc |}.

End Example.

(** * Properties *)

(** The six quantity fields, to state a property of each of them at once. *)
Inductive Quantity := Temperature | Humidity | Pm25 | Pm10 | Co2 | Tvoc.

Definition key (f : Quantity) : string :=
  match f with
  | Temperature => "temperature"
  | Humidity => "humidity"
  | Pm25 => "pm25"
  | Pm10 => "pm10"
  | Co2 => "co2"
  | Tvoc => "tvoc"
  end.

Definition column (f : Quantity) : Values → JS.value :=
  match f with
  | Temperature => temperature
  | Humidity => humidity
  | Pm25 => pm25
  | Pm10 => pm10
  | Co2 => co2
  | Tvoc => tvoc
  end.

(** The closed range the validator gives to each quantity. *)
Definition range (f : Quantity) : Z * Z :=
  match f with
  | Temperature => (-50, 50)
  | Humidity => (0, 100)
  | Pm25 => (0, 500)
  | Pm10 => (0, 500)
  | Co2 => (0, 5000)
  | Tvoc => (0, 1000)
  end.

(** A field is acceptable when it is null or absent, or a number inside the
    closed range. *)
Definition within (f : Quantity) (v : JS.value) : Prop :=
  v = JS.Null ∨ v = JS.Undefined ∨
  ∃ q : Qc, v = JS.Number (JS.Num q) ∧
            (Qc_of_Z (range f).1 ≤ q ∧ q ≤ Qc_of_Z (range f).2)%Qc.

(** Number of calls [recordClient(k)] in a sequence of calls. *)
Definition calls_of (k : string) (calls : list string) : nat :=
  length (filter (λ id, id = k) calls).

(** Number of calls [recordDevice(k, increment)] in a sequence of calls. *)
Definition updates_of (k : string) (increment : bool)
    (updates : list (string * bool)) : nat :=
  length (filter (λ u, u.1 = k ∧ u.2 = increment) updates).

(** A client weighs the number [w]: its entry in the counter object is read
    as that number, not as an inherited function or object. *)
Definition weighs (c : gmap string count) (i : JS.ident) (w : nat) : Prop :=
  weightOf c (JS.propertyKey i) = WeightNumber w.

(** The contribution's client weighs an inherited function or object. *)
Definition object_weight (c : gmap string count) (r : Contribution) : Prop :=
  weightOf c (JS.propertyKey (clientId r)) = WeightObject.

(** A weight as a rational. *)
Definition asQc (w : nat) : Qc := Qc_of_Z (Z.of_nat w).

(** The count an own entry of the client counter object stands for. *)
Definition countOf (entry : option count) : nat :=
  match entry with
  | Some (Count k) => k
  | Some CountNaN | None => O
  end.

(** The empty-payload test of line 129. *)
Definition emptyPayload (body : Body) : bool :=
  forallb JS.nullish (JS.values (sensorData body))
  && negb (JS.truthy (pm2_5 body)).

(** A submission is accepted when it passes the three checks of lines
    126-136. *)
Definition accepted (body : Body) : bool :=
  JS.truthy_ident (device_id body) && negb (emptyPayload body)
  && validateSensorData (sensorData body).

(** The counters after [updateGCounter(client_id)] and
    [updatePNCounter(device_id)] (lines 139 and 142). *)
Definition recorded (body : Body) (st : Counters) : Counters :=
  {| clientReadingsCounter :=
       updateGCounter (JS.propertyKey (client_id body))
                      (clientReadingsCounter st);
     deviceReadingsCounter :=
       updatePNCounter (JS.propertyKey (device_id body)) true
                       (deviceReadingsCounter st) |}.

(** The current value of a client's G-counter, 0 when it has none. *)
Definition clientCount (st : Counters) (clientId : string) : nat :=
  countOf (clientReadingsCounter st !! clientId).

(** The counters after a sequence of ingestion requests, each with the
    Prisma client and the clock it runs against. *)
Definition ingest_all (requests : list (Prisma * Z * Body)) (st : Counters)
  : Counters :=
  foldl (λ st' r, (post_readings r.1.1 r.1.2 r.2 st').1.2) st requests.

(** Number of accepted requests of a sequence that name the device, or the
    client, under the given property key. *)
Definition accepted_for_device (k : string)
    (requests : list (Prisma * Z * Body)) : nat :=
  length (filter (λ r, accepted r.2 = true
                       ∧ JS.propertyKey (device_id r.2) = k) requests).

Definition accepted_for_client (k : string)
    (requests : list (Prisma * Z * Body)) : nat :=
  length (filter (λ r, accepted r.2 = true
                       ∧ JS.propertyKey (client_id r.2) = k) requests).

(** One round of the loop of [calculateWeightedAverage], on the pair of the
    total weight and the weighted sum. *)
Definition weighted_step (c : gmap string count)
    (acc : option nat * JS.number) (r : Contribution)
  : option nat * JS.number :=
  let weight := weightOf c (JS.propertyKey (clientId r)) in
  (addWeight acc.1 weight,
   JS.add acc.2 (JS.mul (JS.ToNumber (value r)) (weightFactor weight))).

(** A number inside the validator's closed range of a quantity. *)
Definition in_range (f : Quantity) (q : Qc) : Prop :=
  (Qc_of_Z (range f).1 ≤ q ∧ q ≤ Qc_of_Z (range f).2)%Qc.

(** The interval each simulated quantity is drawn from (lines 112-117). *)
Definition simulated_range (f : Quantity) : Z * Z :=
  match f with
  | Temperature => (20, 30)
  | Humidity => (40, 70)
  | Pm25 => (5, 35)
  | Pm10 => (10, 50)
  | Co2 => (400, 1000)
  | Tvoc => (50, 300)
  end.

(** The draw that feeds each simulated quantity. *)
Definition draw_of (f : Quantity) : Draws → Qc :=
  match f with
  | Temperature => r1
  | Humidity => r2
  | Pm25 => r3
  | Pm10 => r4
  | Co2 => r5
  | Tvoc => r6
  end.

(** A closed equation between values that compute is settled by evaluating
    its decision procedure. *)
Ltac by_evaluation := apply (bool_decide_unpack _); vm_compute; exact I.

(** ** Validator *)

Section validator.

Lemma isValid_within (f : Quantity) (v : JS.value) :
  isValid v (range f).1 (range f).2 = true ↔ within f v.
Proof.
  unfold within. destruct v as [| |[q|]]; simpl.
  - split; [intros _; auto | done].
  - split; [intros _; auto | done].
  - rewrite andb_true_iff, !bool_decide_eq_true. split.
    + intros [Hlo Hhi]. right; right. exists q. auto.
    + intros [?|[?|(q' & [= ->] & Hlo & Hhi)]]; done.
  - split; [done |]. intros [?|[?|(q' & ? & _)]]; done.
Qed.

Lemma validateSensorData_spec (data : gmap string JS.value) :
  validateSensorData data = true ↔
  ∀ f : Quantity, within f (JS.get data (key f)).
Proof.
  unfold validateSensorData. rewrite !andb_true_iff.
  rewrite (isValid_within Temperature), (isValid_within Humidity),
    (isValid_within Pm25), (isValid_within Pm10), (isValid_within Co2),
    (isValid_within Tvoc).
  split.
  - intros [[[[[? ?] ?] ?] ?] ?] []; assumption.
  - intros H.
    repeat split; [apply (H Temperature) | apply (H Humidity)
      | apply (H Pm25) | apply (H Pm10) | apply (H Co2) | apply (H Tvoc)].
Qed.

End validator.

(** ** ReliabilityTracker *)

Section counters.

Implicit Types (c : gmap string count) (d : gmap string PN).
Implicit Types (k clientId deviceId : string).

Lemma not_inherited_proto k : JS.inherited k = false → k ≠ "__proto__"%string.
Proof. intros H ->. vm_compute in H. discriminate H. Qed.

Lemma read_not_inherited {A : Type} (obj : gmap string A) k :
  JS.inherited k = false →
  JS.read obj k = match obj !! k with
                  | Some a => JS.Own a
                  | None => JS.Missing
                  end.
Proof.
  intros H. unfold JS.read.
  rewrite bool_decide_eq_false_2 by (by apply not_inherited_proto).
  by rewrite H.
Qed.

Lemma read_insert_ne {A : Type} (obj : gmap string A) k k' (a : A) :
  k ≠ k' → JS.read (<[k := a]> obj) k' = JS.read obj k'.
Proof. intros H. unfold JS.read. by rewrite lookup_insert_ne. Qed.

Lemma write_lookup_ne {A : Type} (obj : gmap string A) k k' (a : A) :
  k ≠ k' → JS.write k a obj !! k' = obj !! k'.
Proof.
  intros H. unfold JS.write. case_bool_decide; [done|].
  by rewrite lookup_insert_ne.
Qed.

Lemma updateGCounter_lookup c clientId :
  JS.inherited clientId = false →
  updateGCounter clientId c !! clientId
  = Some (Count (S (countOf (c !! clientId)))).
Proof.
  intros H. pose proof (not_inherited_proto _ H) as Hp.
  unfold updateGCounter, JS.write, JS.read.
  rewrite !bool_decide_eq_false_2 by done. rewrite H.
  destruct (c !! clientId) as [[[|m]|]|] eqn:E; simpl;
    repeat (rewrite ?lookup_insert_eq, ?E; simpl); done.
Qed.

Lemma updateGCounter_lookup_ne c clientId k :
  clientId ≠ k → updateGCounter clientId c !! k = c !! k.
Proof.
  intros Hne. unfold updateGCounter.
  repeat match goal with
         | |- context [match ?x with _ => _ end] => destruct x
         end;
    by rewrite ?write_lookup_ne by done.
Qed.

(** An own entry is counted whatever its name; between two recordings an
    inherited name differs only while it has no own entry. *)
Lemma updateGCounter_countOf c clientId :
  clientId ≠ "__proto__"%string →
  countOf (updateGCounter clientId c !! clientId)
  = match c !! clientId with
    | Some _ => S (countOf (c !! clientId))
    | None => if JS.inherited clientId then O else 1%nat
    end.
Proof.
  intros Hp. unfold updateGCounter, JS.write, JS.read.
  rewrite !bool_decide_eq_false_2 by done.
  destruct (c !! clientId) as [[[|m]|]|] eqn:E; simpl;
    repeat (rewrite ?lookup_insert_eq, ?E; simpl); try done.
  destruct (JS.inherited clientId); simpl;
    repeat (rewrite ?lookup_insert_eq, ?E; simpl); done.
Qed.

Lemma weightOf_count c k :
  JS.inherited k = false →
  weightOf c k = WeightNumber (Nat.max 1 (countOf (c !! k))).
Proof.
  intros H. unfold weightOf. rewrite read_not_inherited by done.
  by destruct (c !! k) as [[[|m]|]|].
Qed.

Lemma weightOf_pos c k (w : nat) :
  weightOf c k = WeightNumber w → (1 ≤ w)%nat.
Proof.
  unfold weightOf. destruct (JS.read c k) as [[[|m]|]| |];
    intros [= <-]; lia.
Qed.

Lemma recordClient_count (calls : list string) c k :
  JS.inherited k = false →
  countOf (foldl (λ c' id, updateGCounter id c') c calls !! k)
  = (countOf (c !! k) + calls_of k calls)%nat.
Proof.
  intros Hk. revert c. induction calls as [|id calls IH]; intros c; simpl.
  - unfold calls_of. simpl. lia.
  - rewrite IH. unfold calls_of. rewrite filter_cons.
    destruct (decide (id = k)) as [->|Hne]; simpl.
    + rewrite updateGCounter_lookup by done. simpl. lia.
    + by rewrite updateGCounter_lookup_ne.
Qed.

Lemma updatePNCounter_lookup d deviceId (increment : bool) :
  JS.inherited deviceId = false →
  updatePNCounter deviceId increment d !! deviceId
  = Some (let c := default {| p := 0; n := 0 |} (d !! deviceId) in
          if increment then {| p := S (p c); n := n c |}
          else {| p := p c; n := S (n c) |}).
Proof.
  intros H. unfold updatePNCounter. rewrite (read_not_inherited d) by done.
  destruct (d !! deviceId) as [c|] eqn:E; simpl.
  - rewrite read_not_inherited, E by done. by rewrite lookup_insert_eq.
  - rewrite read_not_inherited, lookup_insert_eq by done.
    by rewrite lookup_insert_eq.
Qed.

Lemma updatePNCounter_lookup_ne d deviceId (increment : bool) k :
  deviceId ≠ k → updatePNCounter deviceId increment d !! k = d !! k.
Proof.
  intros Hne. unfold updatePNCounter.
  repeat match goal with
         | |- context [match ?x with _ => _ end] => destruct x
         end;
    by rewrite ?lookup_insert_ne by done.
Qed.

(** On an inherited name without an own entry the update changes nothing. *)
Lemma updatePNCounter_inherited d deviceId (increment : bool) :
  JS.read d deviceId = JS.Inherited →
  updatePNCounter deviceId increment d = d.
Proof. intros H. unfold updatePNCounter. by rewrite H, H. Qed.

Lemma totalFor_lookup_ne d d' k :
  d' !! k = d !! k → totalFor d' k = totalFor d k.
Proof. intros H. unfold totalFor, JS.read. by rewrite H. Qed.

Lemma totalFor_updatePNCounter d deviceId (increment : bool) k :
  JS.inherited k = false →
  totalFor (updatePNCounter deviceId increment d) k
  = totalFor d k
    + (if decide (deviceId = k) then if increment then 1 else -1 else 0).
Proof.
  intros Hk. destruct (decide (deviceId = k)) as [->|Hne].
  - unfold totalFor. rewrite !read_not_inherited by done.
    rewrite updatePNCounter_lookup by done.
    destruct (d !! k) as [c|], increment; simpl; lia.
  - rewrite (totalFor_lookup_ne d) by (by apply updatePNCounter_lookup_ne).
    lia.
Qed.

Lemma recordDevice_total (updates : list (string * bool)) d k :
  JS.inherited k = false →
  totalFor (foldl (λ d' u, updatePNCounter u.1 u.2 d') d updates) k
  = totalFor d k + Z.of_nat (updates_of k true updates)
    - Z.of_nat (updates_of k false updates).
Proof.
  intros Hk. revert d.
  induction updates as [|[id b] updates IH]; intros d; simpl.
  - unfold updates_of. simpl. lia.
  - rewrite IH, totalFor_updatePNCounter by done. unfold updates_of.
    rewrite !filter_cons. simpl.
    destruct (decide (id = k)) as [->|Hne], b;
      repeat (case_decide; simpl); try lia; tauto.
Qed.

End counters.

(** ** Reconciler *)

Section reconciler.

Implicit Types (c : gmap string count) (sd : gmap string JS.value).

Lemma asQc_pos (w : nat) : (1 ≤ w)%nat → (0 < asQc w)%Qc.
Proof.
  intros H. unfold asQc. rewrite <- Z2Qc_inj_0.
  apply (proj1 (Z2Qc_inj_lt _ _)). lia.
Qed.

Lemma weight_pos c i (w : nat) : weighs c i w → (0 < asQc w)%Qc.
Proof. intros H%weightOf_pos. by apply asQc_pos. Qed.

Lemma total_weight_nonzero (wa wb : nat) :
  (1 ≤ wa)%nat → (1 ≤ wb)%nat → (asQc wa + asQc wb)%Qc ≠ 0%Qc.
Proof.
  intros Ha Hb.
  apply not_eq_sym, Qclt_not_eq, Qcplus_pos_pos; by apply asQc_pos.
Qed.

(** Two contributions of clients that weigh numbers: every value goes
    through ToNumber and both weights enter the divisor, whatever the values
    are. *)
Lemma calculateWeightedAverage_pair c (a b : Contribution) (wa wb : nat) :
  weighs c (clientId a) wa → weighs c (clientId b) wb →
  calculateWeightedAverage c [a; b]
  = JS.Number
      (JS.div
         (JS.add
            (JS.add (JS.Num 0%Qc)
               (JS.mul (JS.ToNumber (value a)) (JS.Num (asQc wa))))
            (JS.mul (JS.ToNumber (value b)) (JS.Num (asQc wb))))
         (JS.Num (asQc wa + asQc wb)%Qc)).
Proof.
  unfold weighs. intros Ha Hb.
  pose proof (weightOf_pos _ _ _ Ha).
  unfold calculateWeightedAverage, asQc, JS.of_nat. simpl.
  rewrite Ha, Hb. simpl.
  rewrite bool_decide_eq_true_2 by lia.
  by rewrite Nat2Z.inj_add, Z2Qc_inj_add.
Qed.

Lemma calculateWeightedAverage_numbers c (a b : Contribution) (x y : Qc)
    (wa wb : nat) :
  weighs c (clientId a) wa → weighs c (clientId b) wb →
  value a = JS.Number (JS.Num x) →
  value b = JS.Number (JS.Num y) →
  calculateWeightedAverage c [a; b]
  = JS.Number (JS.Num ((x * asQc wa + y * asQc wb)
                       / (asQc wa + asQc wb))%Qc).
Proof.
  intros Hwa Hwb Ha Hb.
  rewrite (calculateWeightedAverage_pair c a b wa wb), Ha, Hb by done.
  simpl.
  rewrite decide_False
    by (apply total_weight_nonzero; by eapply weightOf_pos).
  by rewrite Qcplus_0_l.
Qed.

(** A contribution of a client whose weight is an inherited function or
    object makes the average null. *)
Lemma calculateWeightedAverage_object c (a b : Contribution) :
  weightOf c (JS.propertyKey (clientId a)) = WeightObject
  ∨ weightOf c (JS.propertyKey (clientId b)) = WeightObject →
  calculateWeightedAverage c [a; b] = JS.Null.
Proof.
  unfold calculateWeightedAverage. simpl. intros [H|H]; rewrite H; simpl.
  - done.
  - by destruct (weightOf c (JS.propertyKey (clientId a))).
Qed.

Lemma resolvedData_get c latest rest (i : JS.ident) sd (f : Quantity) :
  JS.get (resolvedData c (latest :: rest) i sd) (key f)
  = calculateWeightedAverage c
      [ {| value := column f (quantities latest);
           clientId := row_clientId latest |};
        {| value := JS.get sd (key f); clientId := i |} ].
Proof.
  unfold resolvedData, JS.get. destruct f; simpl;
    by rewrite ?lookup_insert_ne, lookup_insert_eq by done.
Qed.

(** The unused [resolveValue] does pass a lone number through. *)
Lemma resolveValue_pass_through (m : JS.number) :
  let v := JS.Number m in
  resolveValue v JS.Null = v ∧ resolveValue JS.Null v = v
  ∧ resolveValue v JS.Undefined = v ∧ resolveValue JS.Undefined v = v.
Proof. by repeat split. Qed.

End reconciler.

(** C4: the merge of two present values is not the weighted average when the
    submitting client is named [__proto__]. The latest row has temperature
    20, the submission temperature 22; [clientReadingsCounter["__proto__"]]
    is the prototype object, so the total weight stops being a number and the
    data handed to [create] has temperature null, where both weights 1 call
    for 21. *)
Theorem C4_inherited_client_name_merges_to_null :
  let body :=
    {| device_id := JS.IdString "dev-1"; client_id := JS.IdString "__proto__";
       pm2_5 := JS.Undefined; client_timestamp := None;
       sensorData := {[ "temperature" := JS.int 22 ]} |} in
  let result :=
    post_readings (Example.prisma_ok [Example.row 3 (JS.int 20) JS.Null] [])
                  Example.now body no_counters in
  accepted body = true
  ∧ clientReadingsCounter result.1.2 = ∅
  ∧ weightOf (clientReadingsCounter result.1.2) "__proto__" = WeightObject
  ∧ ∃ data, result.2 !! 2%nat = Some (QCreate data)
            ∧ JS.get (data_fields data) "temperature" = JS.Null.
Proof.
  split; [by_evaluation|]. split; [by_evaluation|]. split; [by_evaluation|].
  eexists. split; [reflexivity|]. by_evaluation.
Qed.




(** C1: a number on one side and [null] on the other do not merge to that
    number. Client app-1 and the latest row's client both weigh 1; the latest
    row has temperature 20 and humidity null, the submission has temperature
    null and humidity 40: the data handed to [create] has temperature 10 and
    humidity 20. A temperature that is absent rather than null gives NaN. *)
Theorem C1_lone_value_is_averaged_with_zero :
  let latest := Example.row 3 (JS.int 20) JS.Null in
  let queries (sd : gmap string JS.value) :=
    (post_readings (Example.prisma_ok [latest] []) Example.now
                   (Example.body JS.Undefined sd) no_counters).2 in
  (∃ data,
     queries {[ "temperature" := JS.Null; "humidity" := JS.int 40 ]} !! 2%nat
       = Some (QCreate data)
     ∧ JS.get (data_fields data) "temperature" = JS.int 10
     ∧ JS.get (data_fields data) "humidity" = JS.int 20)
  ∧ (∃ data,
       queries {[ "humidity" := JS.int 40 ]} !! 2%nat = Some (QCreate data)
       ∧ JS.get (data_fields data) "temperature" = JS.Number JS.NaN).
Proof.
  split.
  - eexists. split; [reflexivity|]. split; by_evaluation.
  - eexists. split; [reflexivity|]. by_evaluation.
Qed.

(** ** Ingestion *)

Section ingestion.

Variables (prisma : Prisma) (now : Z) (body : Body) (st : Counters).

Lemma post_readings_rejected :
  accepted body = false →
  ∃ error, post_readings prisma now body st = (Json400 error, st, []).
Proof.
  unfold accepted, emptyPayload, post_readings. intros H.
  destruct (JS.truthy_ident (device_id body)); simpl in *; [|eauto].
  destruct (forallb JS.nullish (JS.values (sensorData body))
            && negb (JS.truthy (pm2_5 body))); simpl in *; [eauto|].
  rewrite H. simpl. eauto.
Qed.

Lemma post_readings_accepted :
  accepted body = true →
  post_readings prisma now body st
  = let st' := recorded body st in
    let failed := Json500 "Failed to store sensor reading." in
    let q1 := QUpsert (device_id body) in
    let q2 := QFindRecent (device_id body) (now - window_ms) in
    match device_upsert prisma (device_id body) with
    | Thrown message => (failed message, st', [q1])
    | Returned device =>
        match sensorReading_findRecent prisma (device_id body)
                (now - window_ms) with
        | Thrown message => (failed message, st', [q1; q2])
        | Returned recentReadings =>
            let data :=
              createData device body
                (resolvedData (clientReadingsCounter st') recentReadings
                   (client_id body) (sensorData body)) in
            match sensorReading_create prisma data with
            | Thrown message => (failed message, st', [q1; q2; QCreate data])
            | Returned newReading =>
                (Json201 (withDeviceId (JS.propertyKey (device_id body))
                                       newReading),
                 st', [q1; q2; QCreate data])
            end
        end
    end.
Proof.
  unfold accepted, emptyPayload, post_readings.
  rewrite !andb_true_iff, negb_true_iff. intros [[-> ->] ->]. done.
Qed.

Lemma values_all_nullish :
  (∀ k v, sensorData body !! k = Some v → JS.nullish v = true) →
  forallb JS.nullish (JS.values (sensorData body)) = true.
Proof.
  intros H. apply forallb_forall. intros v Hv%list_elem_of_In.
  unfold JS.values in Hv. apply list_elem_of_fmap in Hv as [[k v'] [-> Hkv]].
  apply elem_of_map_to_list in Hkv. eauto.
Qed.

(** A value set without a single number passes the validator. *)
Lemma all_nullish_valid :
  forallb JS.nullish (JS.values (sensorData body)) = true →
  validateSensorData (sensorData body) = true.
Proof.
  intros H. apply validateSensorData_spec. intros f.
  unfold within, JS.get.
  destruct (sensorData body !! key f) as [v|] eqn:E; simpl; [|auto].
  assert (JS.nullish v = true) as Hv.
  { apply (proj1 (forallb_forall _ _) H), list_elem_of_In.
    unfold JS.values. apply list_elem_of_fmap. exists (key f, v).
    split; [done|]. by apply elem_of_map_to_list. }
  destruct v; [auto | auto | done].
Qed.

End ingestion.

(** With no reading in the window the data handed to [create] is the submitted
    rest object with [pm25] overwritten by the legacy [pm2_5]: five quantity
    fields are stored as submitted, the submitted [pm25] is not. *)
Lemma post_readings_no_recent (prisma : Prisma) (now : Z) (body : Body)
    (st : Counters) (device : Device) :
  accepted body = true →
  device_upsert prisma (device_id body) = Returned device →
  sensorReading_findRecent prisma (device_id body) (now - window_ms)
    = Returned [] →
  ∃ data,
    (post_readings prisma now body st).2 !! 2%nat = Some (QCreate data)
    ∧ data_fields data = <["pm25" := pm2_5 body]> (sensorData body)
    ∧ (∀ f, f ≠ Pm25 →
         JS.get (data_fields data) (key f) = JS.get (sensorData body) (key f))
    ∧ JS.get (data_fields data) "pm25" = pm2_5 body.
Proof.
  intros Hacc Hup Hfind. rewrite post_readings_accepted by done.
  simpl. rewrite Hup, Hfind. simpl.
  eexists. split; [by destruct (sensorReading_create _ _)|].
  split; [done|]. unfold JS.get. simpl. split.
  - intros f Hf. destruct f; try done; by rewrite lookup_insert_ne.
  - by rewrite lookup_insert_eq.
Qed.

(** C2: the submitted pm25 is not what gets stored. Device dev-1 submits
    temperature 21 and pm25 12 with no reading in the window: the data handed
    to [create] holds temperature 21 but pm25 [undefined], and the row comes
    back with pm25 NULL. *)
Theorem C2_submitted_pm25_is_not_stored :
  let sd : gmap string JS.value :=
    {[ "temperature" := JS.int 21; "pm25" := JS.int 12 ]} in
  let body := Example.body JS.Undefined sd in
  let result :=
    post_readings (Example.prisma_ok [] []) Example.now body no_counters in
  accepted body = true
  ∧ validateSensorData sd = true
  ∧ JS.get sd "pm25" = JS.int 12
  ∧ ∃ data row,
      result = (Json201 row, recorded body no_counters,
                [QUpsert (JS.IdString "dev-1");
                 QFindRecent (JS.IdString "dev-1") 700000;
                 QCreate data])
      ∧ JS.get (data_fields data) "temperature" = JS.int 21
      ∧ JS.get (data_fields data) "pm25" = JS.Undefined
      ∧ pm25 (quantities row) = JS.Null.
Proof.
  repeat split; [by_evaluation ..|].
  eexists _, _. split; [vm_compute; reflexivity|].
  repeat split; by_evaluation.
Qed.

(** C5 as stated fails in three ways: a submission without [device_id] is
    rejected for the missing device instead; a property outside the six
    quantities keeps a submission with six null quantities from being
    rejected at all; and a supplied [pm2_5] of 0 does not bypass the
    rejection. *)
Lemma C5_empty_payload_rejection_fails :
  let empty := "Received reading data contains no sensor values."%string in
  let six_nullish (b : Body) :=
    ∀ f, JS.nullish (JS.get (sensorData b) (key f)) = true in
  let no_device :=
    {| device_id := JS.IdUndefined; client_id := JS.IdString "app-1";
       pm2_5 := JS.Undefined; client_timestamp := None; sensorData := ∅ |} in
  let extra := Example.body JS.Undefined {[ "battery" := JS.int 3 ]} in
  let zero := Example.body (JS.int 0) ∅ in
  let run b := post_readings (Example.prisma_ok [] []) Example.now b
                             no_counters in
  (six_nullish no_device ∧ pm2_5 no_device = JS.Undefined
   ∧ (run no_device).1.1 = Json400 "Missing device_id field.")
  ∧ (six_nullish extra ∧ pm2_5 extra = JS.Undefined
     ∧ (run extra).1.1 ≠ Json400 empty
     ∧ (run extra).1.2 ≠ no_counters
     ∧ length (run extra).2 = 3%nat)
  ∧ (pm2_5 zero = JS.int 0 ∧ (run zero).1.1 = Json400 empty).
Proof.
  repeat split; try (intros []; reflexivity); try by_evaluation.
Qed.

(** C5, amended: a submission with a non-empty [device_id] whose properties
    other than [device_id], [client_id], [pm2_5] and [client_timestamp] are
    all null or absent (the six quantities in particular) and whose [pm2_5]
    is null or absent is rejected with the empty-payload error, the counters
    untouched and no query issued; a submission whose [pm2_5] is a non-zero
    number is never rejected with that error. *)
Theorem C5_empty_payload_rejected_unless_alias (prisma : Prisma) (now : Z)
    (body : Body) (st : Counters) :
  let empty := "Received reading data contains no sensor values."%string in
  (JS.truthy_ident (device_id body) = true →
   (∀ k v, sensorData body !! k = Some v → JS.nullish v = true) →
   JS.nullish (pm2_5 body) = true →
   post_readings prisma now body st = (Json400 empty, st, []))
  ∧ (∀ q : Qc, pm2_5 body = JS.Number (JS.Num q) → q ≠ 0%Qc →
     (post_readings prisma now body st).1.1 ≠ Json400 empty).
Proof.
  split.
  - intros Hdev Hnull Halias. unfold post_readings.
    rewrite Hdev, (values_all_nullish body Hnull). simpl.
    by destruct (pm2_5 body).
  - intros q Hq Hq0. unfold post_readings. rewrite Hq. simpl.
    rewrite bool_decide_eq_false_2 by done. rewrite andb_false_r. simpl.
    destruct (JS.truthy_ident (device_id body)); simpl; [|done].
    destruct (validateSensorData (sensorData body)); simpl; [|done].
    destruct (device_upsert _ _); [|done].
    destruct (sensorReading_findRecent _ _ _); [|done].
    by destruct (sensorReading_create _ _).
Qed.

(** C5, evaluated: an all-null submission is rejected untouched, and the same
    submission with [pm2_5] 12 is not rejected as empty. *)
Lemma C5_rejected_and_bypassed :
  post_readings Example.prisma_down Example.now
    (Example.body JS.Null {[ "temperature" := JS.Null ]}) no_counters
  = (Json400 "Received reading data contains no sensor values.",
     no_counters, [])
  ∧ (post_readings Example.prisma_down Example.now
       (Example.body (JS.int 12) {[ "temperature" := JS.Null ]})
       no_counters).1.1
    ≠ Json400 "Received reading data contains no sensor values.".
Proof.
  split.
  - apply (C5_empty_payload_rejected_unless_alias Example.prisma_down
             Example.now (Example.body JS.Null {[ "temperature" := JS.Null ]})
             no_counters); [reflexivity | | reflexivity].
    intros k v Hkv. simpl in Hkv.
    apply lookup_singleton_Some in Hkv as [_ <-]. reflexivity.
  - apply (proj2 (C5_empty_payload_rejected_unless_alias Example.prisma_down
             Example.now (Example.body (JS.int 12)
                            {[ "temperature" := JS.Null ]}) no_counters)
             (Qc_of_Z 12)); [reflexivity|].
    intros H. vm_compute in H. discriminate H.
Defined.

(** What [recorded] does to the counters of a submission whose client and
    device are not named like an inherited property. *)
Lemma recorded_counts (body : Body) (st : Counters) :
  let client := JS.propertyKey (client_id body) in
  let device := JS.propertyKey (device_id body) in
  (JS.inherited client = false →
   clientCount (recorded body st) client = S (clientCount st client))
  ∧ (JS.inherited device = false →
     totalFor (deviceReadingsCounter (recorded body st)) device
     = totalFor (deviceReadingsCounter st) device + 1).
Proof.
  unfold clientCount, recorded. simpl. split.
  - intros H. by rewrite updateGCounter_lookup.
  - intros H. rewrite totalFor_updatePNCounter by done.
    by rewrite decide_True.
Qed.

(** C6 as stated fails: when the first query throws, the request is answered
    with the generic failure, yet the client's G-counter has gone from 0 to 1
    and the device's total from 0 to 1. *)
Lemma C6_counters_differ_after_store_failure :
  let body := Example.body JS.Undefined {[ "temperature" := JS.int 21 ]} in
  let result :=
    post_readings Example.prisma_down Example.now body no_counters in
  result.1.1 = Json500 "Failed to store sensor reading." "connection refused"
  ∧ result.2 = [QUpsert (JS.IdString "dev-1")]
  ∧ clientCount no_counters "app-1" = 0%nat
  ∧ clientCount result.1.2 "app-1" = 1%nat
  ∧ totalFor (deviceReadingsCounter no_counters) "dev-1" = 0
  ∧ totalFor (deviceReadingsCounter result.1.2) "dev-1" = 1
  ∧ result.1.2 ≠ no_counters.
Proof. repeat split; by_evaluation. Qed.

(** C6, amended: when [upsert], the window [findMany] or [create] throws
    during an accepted ingestion, the request is answered with the generic
    failure carrying the thrown message, and the counter updates made before
    the first query stay: for a client and a device not named like a property
    inherited from [Object.prototype], the client's G-counter and the
    device's total are each one higher than before the request. *)
Theorem C6_store_failure_is_generic_and_keeps_increments (prisma : Prisma)
    (now : Z) (body : Body) (st : Counters) (message : string) :
  accepted body = true →
  let result := post_readings prisma now body st in
  let upsert := device_upsert prisma (device_id body) in
  let find :=
    sensorReading_findRecent prisma (device_id body) (now - window_ms) in
  let outcome_is_failure :=
    result.1.1 = Json500 "Failed to store sensor reading." message
    ∧ result.1.2 = recorded body st
    ∧ (JS.inherited (JS.propertyKey (client_id body)) = false →
       clientCount result.1.2 (JS.propertyKey (client_id body))
       = S (clientCount st (JS.propertyKey (client_id body))))
    ∧ (JS.inherited (JS.propertyKey (device_id body)) = false →
       totalFor (deviceReadingsCounter result.1.2)
                (JS.propertyKey (device_id body))
       = totalFor (deviceReadingsCounter st)
                  (JS.propertyKey (device_id body)) + 1) in
  (upsert = Thrown message → outcome_is_failure)
  ∧ (∀ device, upsert = Returned device → find = Thrown message →
     outcome_is_failure)
  ∧ (∀ device recent, upsert = Returned device → find = Returned recent →
     sensorReading_create prisma
       (createData device body
          (resolvedData (clientReadingsCounter (recorded body st)) recent
                        (client_id body) (sensorData body)))
     = Thrown message →
     outcome_is_failure).
Proof.
  intros Hacc. cbv zeta.
  destruct (recorded_counts body st) as (Hg & Hp).
  rewrite post_readings_accepted by done. cbv zeta.
  split; [|split].
  - intros ->. done.
  - intros device -> ->. done.
  - intros device recent -> -> ->. done.
Qed.

(** C6, evaluated on three clients, whose first, second and third query
    throws. *)
Lemma C6_three_failing_clients :
  let body := Example.body JS.Undefined {[ "temperature" := JS.int 21 ]} in
  let after (prisma : Prisma) :=
    (post_readings prisma Example.now body no_counters).1.2 in
  accepted body = true
  ∧ clientCount (after Example.prisma_down) "app-1" = 1%nat
  ∧ clientCount (after Example.prisma_no_find) "app-1" = 1%nat
  ∧ totalFor (deviceReadingsCounter (after Example.prisma_no_create)) "dev-1"
    = 0 + 1.
Proof.
  pose (body := Example.body JS.Undefined {[ "temperature" := JS.int 21 ]}).
  assert (accepted body = true) as Hacc by (vm_compute; reflexivity).
  split; [exact Hacc|]. split; [|split].
  - pose proof (C6_store_failure_is_generic_and_keeps_increments
                  Example.prisma_down Example.now body no_counters
                  "connection refused" Hacc) as (H & _ & _).
    destruct (H eq_refl) as (_ & _ & Hclient & _).
    apply Hclient. vm_compute. reflexivity.
  - pose proof (C6_store_failure_is_generic_and_keeps_increments
                  Example.prisma_no_find Example.now body no_counters
                  "query timed out" Hacc) as (_ & H & _).
    destruct (H Example.device eq_refl eq_refl) as (_ & _ & Hclient & _).
    apply Hclient. vm_compute. reflexivity.
  - pose proof (C6_store_failure_is_generic_and_keeps_increments
                  Example.prisma_no_create Example.now body no_counters
                  "insert failed" Hacc) as (_ & _ & H).
    destruct (H Example.device [] eq_refl eq_refl eq_refl)
      as (_ & _ & _ & Hdevice).
    apply Hdevice. vm_compute. reflexivity.
Defined.

(** C7: the validator accepts a value set exactly when each of the six fields
    is null, absent, or a number inside its closed range; a single number
    strictly outside its range makes it reject; and a submission it rejects is
    refused as a whole: answered with status 400, the counters untouched and
    no query issued, so nothing of it is stored. *)
Theorem C7_validator_accepts_iff_all_in_range (data : gmap string JS.value) :
  (validateSensorData data = true ↔
   ∀ f : Quantity, within f (JS.get data (key f)))
  ∧ (∀ (f : Quantity) (q : Qc),
       JS.get data (key f) = JS.Number (JS.Num q) →
       (q < Qc_of_Z (range f).1 ∨ Qc_of_Z (range f).2 < q)%Qc →
       validateSensorData data = false)
  ∧ (∀ prisma now body st,
       sensorData body = data → validateSensorData data = false →
       (∃ error, post_readings prisma now body st = (Json400 error, st, []))
       ∧ (JS.truthy_ident (device_id body) = true →
          post_readings prisma now body st
          = (Json400 "Invalid sensor data.", st, []))).
Proof.
  split; [apply validateSensorData_spec|]. split.
  - intros f q Hq Hout. apply not_true_iff_false.
    intros Hvalid. pose proof (proj1 (validateSensorData_spec data) Hvalid f)
      as Hf. clear Hvalid. rename Hf into Hvalid.
    rewrite Hq in Hvalid.
    destruct Hvalid as [?|[?|(q' & [= <-] & Hlo & Hhi)]]; [done..|].
    destruct Hout as [Hout|Hout].
    + by apply Qclt_not_le in Hout.
    + by apply Qclt_not_le in Hout.
  - intros prisma now body st <- Hinvalid. split.
    + apply post_readings_rejected.
      unfold accepted. rewrite Hinvalid. apply andb_false_r.
    + intros Hdev. unfold post_readings. rewrite Hdev, Hinvalid. simpl.
      destruct (forallb JS.nullish (JS.values (sensorData body))) eqn:E;
        [|done].
      apply all_nullish_valid in E. congruence.
Qed.

(** C7, evaluated: every field in range is accepted; a temperature of 51
    among otherwise valid fields is rejected and the request refused. *)
Lemma C7_in_range_accepted_out_of_range_refused :
  let good : gmap string JS.value :=
    {[ "temperature" := JS.int 50; "humidity" := JS.int 0;
       "co2" := JS.Null ]} in
  let bad : gmap string JS.value :=
    {[ "temperature" := JS.int 51; "humidity" := JS.int 40 ]} in
  (∀ f : Quantity, within f (JS.get good (key f)))
  ∧ validateSensorData bad = false
  ∧ post_readings (Example.prisma_ok [] []) Example.now
      (Example.body JS.Undefined bad) no_counters
    = (Json400 "Invalid sensor data.", no_counters, []).
Proof.
  intros good bad.
  assert (validateSensorData bad = false) as Hbad.
  { apply (proj1 (proj2 (C7_validator_accepts_iff_all_in_range bad))
             Temperature (Qc_of_Z 51)); [vm_compute; reflexivity|].
    right. vm_compute. reflexivity. }
  split; [|split; [exact Hbad|]].
  - apply (proj1 (C7_validator_accepts_iff_all_in_range good)).
    vm_compute. reflexivity.
  - apply (proj2 (proj2 (C7_validator_accepts_iff_all_in_range bad))
             (Example.prisma_ok [] []) Example.now
             (Example.body JS.Undefined bad) no_counters eq_refl Hbad).
    reflexivity.
Defined.

(** C9: a client named like an inherited property is miscounted. The weight
    of the never recorded client [constructor] is the inherited function,
    not 1; its first recording stores NaN, so after three recordings it
    weighs 2, not 3; and [__proto__] is never stored at all. *)
Theorem C9_inherited_client_name_is_miscounted :
  let record (calls : list string) :=
    foldl (λ c' id, updateGCounter id c') ∅ calls in
  weightOf (record []) "constructor" = WeightObject
  ∧ record ["constructor"] = {[ "constructor" := CountNaN ]}
  ∧ weightOf (record ["constructor"; "constructor"; "constructor"])
             "constructor" = WeightNumber 2
  ∧ record ["__proto__"; "__proto__"] = ∅
  ∧ weightOf (record ["__proto__"; "__proto__"]) "__proto__" = WeightObject.
Proof. repeat split; by_evaluation. Qed.

(** Starting from the empty counter object, a client whose name is not an
    inherited property name weighs 1 when it was never recorded, and N when
    it was recorded exactly N times, N at least 1, whatever other clients
    were recorded in between. *)
Theorem weightOf_counts_recordings (calls : list string)
    (clientId : string) :
  JS.inherited clientId = false →
  let c := foldl (λ c' id, updateGCounter id c') ∅ calls in
  let N := calls_of clientId calls in
  (N = 0%nat → weightOf c clientId = WeightNumber 1)
  ∧ ((1 ≤ N)%nat → weightOf c clientId = WeightNumber N).
Proof.
  intros Hk c N. pose proof (recordClient_count calls ∅ clientId Hk) as H.
  rewrite lookup_empty in H. simpl in H. fold c N in H.
  rewrite weightOf_count, H by done.
  split; intros HN; f_equal; lia.
Qed.

(** Evaluated: after recording a, constructor, a, a, client a weighs 3 and
    the unrecorded client z weighs 1. *)
Lemma weightOf_after_three_recordings :
  let c := foldl (λ c' id, updateGCounter id c') ∅
             ["a"; "constructor"; "a"; "a"] in
  weightOf c "z" = WeightNumber 1 ∧ weightOf c "a" = WeightNumber 3.
Proof.
  split.
  - apply (weightOf_counts_recordings ["a"; "constructor"; "a"; "a"] "z");
      reflexivity.
  - apply (weightOf_counts_recordings ["a"; "constructor"; "a"; "a"] "a");
      [reflexivity|]. vm_compute. lia.
Defined.

(** ** Retrieval *)

(** C8: a device named like an inherited property is never counted.
    [deviceReadingsCounter["constructor"]] is the inherited function, so no
    entry is created for it: three increments and one decrement leave its
    total at 0, not 2; and after five accepted submissions for that device
    the counter object is still empty and the retrieval still answers with
    simulated data, although the store returns a row. *)
Theorem C8_inherited_device_name_is_never_counted :
  let body :=
    {| device_id := JS.IdString "constructor";
       client_id := JS.IdString "app-1"; pm2_5 := JS.Undefined;
       client_timestamp := None;
       sensorData := {[ "temperature" := JS.int 21 ]} |} in
  let st5 :=
    foldl (λ st b, (post_readings (Example.prisma_ok [] []) Example.now b
                                  st).1.2)
          no_counters (replicate 5 body) in
  totalFor (foldl (λ d' u, updatePNCounter u.1 u.2 d') ∅
              [("constructor", true); ("constructor", true);
               ("constructor", false); ("constructor", true)])
           "constructor" = 0
  ∧ accepted body = true
  ∧ deviceReadingsCounter st5 = ∅
  ∧ totalFor (deviceReadingsCounter st5) "constructor" = 0
  ∧ (get_readings
       (Example.prisma_ok [] [Example.row 1 (JS.int 21) JS.Null])
       Example.draws "constructor" None st5).1
    = Json200Simulation "Insufficient data. Switching to simulation mode."
                        (generateDummyData Example.draws).
Proof. repeat split; by_evaluation. Qed.

(** For a device whose name is not an inherited property name, [totalFor] is
    p - n of the device's entry and 0 when it has none; after any sequence of
    updates from the empty counter object it is the number of increments
    minus the number of decrements of that device, so 2 after three
    increments and one decrement. For every device name, whatever batch the
    store returns, the retrieval answers with simulated data when the total
    is below 5 and never does when it is 5 or more. *)
Theorem total_and_simulation_gate (d : gmap string PN) (deviceId : string) :
  (JS.inherited deviceId = false →
   totalFor d deviceId
   = match d !! deviceId with
     | Some c => Z.of_nat (p c) - Z.of_nat (n c)
     | None => 0
     end
   ∧ (∀ updates : list (string * bool),
        totalFor (foldl (λ d' u, updatePNCounter u.1 u.2 d') ∅ updates)
                 deviceId
        = Z.of_nat (updates_of deviceId true updates)
          - Z.of_nat (updates_of deviceId false updates))
   ∧ totalFor (foldl (λ d' u, updatePNCounter u.1 u.2 d') ∅
                 [(deviceId, true); (deviceId, true); (deviceId, false);
                  (deviceId, true)]) deviceId = 2)
  ∧ (∀ prisma rnd parsedLimit st readings,
       deviceReadingsCounter st = d →
       sensorReading_findMany prisma deviceId (clampLimit parsedLimit)
         = Returned readings →
       let response :=
         (get_readings prisma rnd deviceId parsedLimit st).1 in
       (totalFor d deviceId < 5 →
        response
        = Json200Simulation "Insufficient data. Switching to simulation mode."
                            (generateDummyData rnd))
       ∧ (5 ≤ totalFor d deviceId →
          ∀ message data, response ≠ Json200Simulation message data)).
Proof.
  split.
  - intros Hk. split; [|split].
    + unfold totalFor. rewrite read_not_inherited by done.
      by destruct (d !! deviceId).
    + intros updates. rewrite recordDevice_total by done. unfold totalFor.
      rewrite read_not_inherited, lookup_empty by done. lia.
    + rewrite recordDevice_total by done. unfold totalFor, updates_of.
      rewrite read_not_inherited, lookup_empty by done.
      rewrite !filter_cons, !filter_nil. simpl.
      repeat (case_decide; simpl); try lia; exfalso; tauto.
  - intros prisma rnd parsedLimit st readings <- Hfind. unfold get_readings.
    rewrite Hfind. simpl. split.
    + intros Hlt. by rewrite (proj2 (Z.ltb_lt _ _) Hlt).
    + intros Hge message data. rewrite (proj2 (Z.ltb_ge _ _) Hge).
      by destruct (length readings =? 0)%nat.
Qed.

(** Evaluated: a device with three increments and one decrement is served
    simulated data although the store holds a row for it; a device with five
    increments is served its row. *)
Lemma simulation_gate_at_2_and_at_5 :
  let stored := [Example.row 1 (JS.int 20) (JS.int 40)] in
  let prisma := Example.prisma_ok [] stored in
  let st (d : gmap string PN) :=
    {| clientReadingsCounter := ∅; deviceReadingsCounter := d |} in
  let low : gmap string PN := {[ "dev-1" := {| p := 3; n := 1 |} ]} in
  let high : gmap string PN := {[ "dev-1" := {| p := 5; n := 0 |} ]} in
  totalFor low "dev-1" = 2
  ∧ (get_readings prisma Example.draws "dev-1" None (st low)).1
    = Json200Simulation "Insufficient data. Switching to simulation mode."
                        (generateDummyData Example.draws)
  ∧ ∀ message data,
      (get_readings prisma Example.draws "dev-1" None (st high)).1
      ≠ Json200Simulation message data.
Proof.
  intros stored prisma st low high. split; [|split].
  - rewrite (proj1 (proj1 (total_and_simulation_gate low "dev-1") eq_refl)).
    reflexivity.
  - apply (proj2 (total_and_simulation_gate low "dev-1")
             prisma Example.draws None (st low) stored eq_refl eq_refl).
    vm_compute. reflexivity.
  - apply (proj2 (total_and_simulation_gate high "dev-1")
             prisma Example.draws None (st high) stored eq_refl eq_refl).
    vm_compute. discriminate.
Defined.

Section interpolation.

Implicit Types (readings : list SensorReading).

(** A field of a reading strictly inside the batch: kept when present,
    otherwise half the sum of what ToNumber makes of the two neighbours. *)
Lemma interpolatedReadings_inside readings (index : nat)
    (prev reading next : SensorReading) (f : Quantity) :
  readings !! index = Some prev →
  readings !! S index = Some reading →
  readings !! S (S index) = Some next →
  ∃ filled,
    interpolatedReadings readings !! S index = Some filled
    ∧ column f (quantities filled)
      = JS.coalesce (column f (quantities reading))
          (JS.Number
             (JS.div (JS.add (JS.ToNumber (column f (quantities prev)))
                             (JS.ToNumber (column f (quantities next))))
                     (JS.Num (Qc_of_Z 2)))).
Proof.
  intros Hprev Hmid Hnext. unfold interpolatedReadings.
  apply lookup_lt_Some in Hnext as Hlen.
  assert ((S index =? 0)%nat || (S index + 1 =? length readings)%nat
          = false) as Hinside.
  { apply orb_false_iff. split; apply Nat.eqb_neq; lia. }
  rewrite list_lookup_imap, Hmid. cbn [fmap option_fmap option_map].
  rewrite Hinside.
  replace (S index - 1)%nat with index by lia.
  replace (S index + 1)%nat with (S (S index)) by lia.
  rewrite Hprev, Hnext.
  eexists. split; [done|]. by destruct f.
Qed.

(** A null neighbour counts as the number 0: next to a null neighbour and a
    neighbour holding [x], a null field is filled with [x / 2]. *)
Lemma interpolatedReadings_null_neighbour readings (index : nat)
    (prev reading next : SensorReading) (f : Quantity) (x : Qc) :
  readings !! index = Some prev →
  readings !! S index = Some reading →
  readings !! S (S index) = Some next →
  column f (quantities reading) = JS.Null →
  column f (quantities prev) = JS.Null →
  column f (quantities next) = JS.Number (JS.Num x) →
  ∃ filled,
    interpolatedReadings readings !! S index = Some filled
    ∧ column f (quantities filled) = JS.Number (JS.Num (x / 2)%Qc).
Proof.
  intros Hprev Hmid Hnext Hr Hp Hn.
  destruct (interpolatedReadings_inside readings index prev reading next f)
    as (filled & Hfilled & Hf); [done..|].
  exists filled. split; [done|]. rewrite Hf, Hr, Hp, Hn. simpl.
  unfold JS.coalesce. simpl. by rewrite Qcplus_0_l, Z2Qc_inj_2.
Qed.

Lemma interpolatedReadings_length readings :
  length (interpolatedReadings readings) = length readings.
Proof. apply length_imap. Qed.

Lemma interpolatedReadings_first readings :
  interpolatedReadings readings !! 0%nat = readings !! 0%nat.
Proof.
  unfold interpolatedReadings. rewrite list_lookup_imap.
  by destruct (readings !! 0%nat).
Qed.

Lemma interpolatedReadings_last readings :
  last (interpolatedReadings readings) = last readings.
Proof.
  rewrite !last_lookup, interpolatedReadings_length.
  unfold interpolatedReadings. rewrite list_lookup_imap.
  destruct (readings !! pred (length readings)) as [r|] eqn:E; [|done].
  apply lookup_lt_Some in E as Hlt. simpl.
  replace (pred (length readings) + 1 =? length readings)%nat with true
    by (symmetry; apply Nat.eqb_eq; lia).
  by rewrite orb_true_r.
Qed.

End interpolation.

(** C3: a null neighbour is not treated as absent. In the batch A, B, C with
    temperatures null, null, 30 and humidities 40, null, 50 the pass gives B
    the temperature 15, half of 0 + 30, and the humidity 45; with all three
    temperatures null it gives B the temperature 0, not null. *)
Theorem C3_null_neighbour_counts_as_zero :
  let temperatures (batch : list SensorReading) :=
    (temperature ∘ quantities) <$> interpolatedReadings batch in
  let humidities (batch : list SensorReading) :=
    (humidity ∘ quantities) <$> interpolatedReadings batch in
  let batch := [Example.row 1 JS.Null (JS.int 40);
                Example.row 2 JS.Null JS.Null;
                Example.row 3 (JS.int 30) (JS.int 50)] in
  let nulls := [Example.row 1 JS.Null JS.Null;
                Example.row 2 JS.Null JS.Null;
                Example.row 3 JS.Null JS.Null] in
  temperatures batch = [JS.Null; JS.int 15; JS.int 30]
  ∧ humidities batch = [JS.int 40; JS.int 45; JS.int 50]
  ∧ temperatures nulls = [JS.Null; JS.int 0; JS.Null].
Proof. repeat split; by_evaluation. Qed.

(** C10: the pass returns a batch of the same length; in a batch of two or
    more readings the first and the last reading come back as they were,
    null fields included; a batch of one reading comes back as it was. *)
Theorem C10_first_and_last_unchanged (readings : list SensorReading) :
  length (interpolatedReadings readings) = length readings
  ∧ ((2 ≤ length readings)%nat →
     interpolatedReadings readings !! 0%nat = readings !! 0%nat
     ∧ last (interpolatedReadings readings) = last readings)
  ∧ (∀ reading, readings = [reading] →
       interpolatedReadings readings = [reading]).
Proof.
  split; [apply interpolatedReadings_length|]. split.
  - intros _. split.
    + apply interpolatedReadings_first.
    + apply interpolatedReadings_last.
  - by intros reading ->.
Qed.

(** C10, evaluated: in a batch of three all-null readings the first and the
    last come back all-null, and a batch of one such reading comes back as it
    was. *)
Lemma C10_null_ends_stay_null :
  let A := Example.row 1 JS.Null JS.Null in
  let B := Example.row 2 JS.Null JS.Null in
  let C := Example.row 3 JS.Null JS.Null in
  interpolatedReadings [A; B; C] !! 0%nat = Some A
  ∧ last (interpolatedReadings [A; B; C]) = Some C
  ∧ interpolatedReadings [A] = [A].
Proof.
  intros A B C.
  destruct (C10_first_and_last_unchanged [A; B; C]) as (_ & Hends & _).
  destruct Hends as [Hfirst Hlast]; [simpl; lia|].
  split; [exact Hfirst|]. split; [exact Hlast|].
  apply (proj2 (proj2 (C10_first_and_last_unchanged [A])) A). reflexivity.
Defined.

(** * Further properties of the code *)

(** ** Counters *)

Lemma updateGCounter_lookup_self (c c' : gmap string count) (a : string) :
  c !! a = c' !! a → updateGCounter a c !! a = updateGCounter a c' !! a.
Proof.
  intros H. unfold updateGCounter, JS.read, JS.write.
  case_bool_decide; [by rewrite <- H|]. rewrite <- H.
  destruct (c !! a) as [[[|m]|]|] eqn:E; simpl;
    repeat (rewrite ?lookup_insert_eq, ?E, <- ?H; simpl); try done.
  destruct (JS.inherited a); simpl;
    repeat (rewrite ?lookup_insert_eq, ?E, <- ?H; simpl); done.
Qed.

Lemma updatePNCounter_lookup_self (d d' : gmap string PN) (a : string)
    (x : bool) :
  d !! a = d' !! a → updatePNCounter a x d !! a = updatePNCounter a x d' !! a.
Proof.
  intros H. unfold updatePNCounter, JS.read.
  case_bool_decide; [by rewrite <- H|]. rewrite <- H.
  destruct (d !! a) as [e|] eqn:E; simpl;
    repeat (rewrite ?lookup_insert_eq, ?E, <- ?H; simpl); try done.
  destruct (JS.inherited a); simpl;
    repeat (rewrite ?lookup_insert_eq, ?E, <- ?H; simpl); done.
Qed.

(** Updates of the counters commute: two recordings of clients, and two
    recordings of devices in either direction, leave the same own entries
    in the counter object in either order, names inherited from
    [Object.prototype] included. *)
Theorem counter_updates_commute (a b : string) (x y : bool)
    (c : gmap string count) (d : gmap string PN) :
  updateGCounter a (updateGCounter b c) = updateGCounter b (updateGCounter a c)
  ∧ updatePNCounter a x (updatePNCounter b y d)
    = updatePNCounter b y (updatePNCounter a x d).
Proof.
  split; apply map_eq; intros k.
  - destruct (decide (a = b)) as [->|Hab]; [done|].
    destruct (decide (k = a)) as [->|Hka];
      [|destruct (decide (k = b)) as [->|Hkb]].
    + rewrite (updateGCounter_lookup_ne _ b a) by done.
      apply updateGCounter_lookup_self.
      by rewrite updateGCounter_lookup_ne.
    + rewrite (updateGCounter_lookup_ne _ a b) by done.
      symmetry. apply updateGCounter_lookup_self.
      by rewrite updateGCounter_lookup_ne.
    + by rewrite !updateGCounter_lookup_ne by done.
  - destruct (decide (a = b)) as [->|Hab].
    + destruct (decide (k = b)) as [->|Hkb].
      * unfold updatePNCounter, JS.read.
        case_bool_decide; [done|].
        destruct (d !! b) as [[]|] eqn:E; simpl;
          repeat (rewrite ?lookup_insert_eq, ?E; simpl);
          [by destruct x, y|].
        destruct (JS.inherited b); simpl;
          repeat (rewrite ?lookup_insert_eq, ?E; simpl); by destruct x, y.
      * by rewrite !updatePNCounter_lookup_ne by done.
    + destruct (decide (k = a)) as [->|Hka];
        [|destruct (decide (k = b)) as [->|Hkb]].
      * rewrite (updatePNCounter_lookup_ne _ b y a) by done.
        apply updatePNCounter_lookup_self.
        by rewrite updatePNCounter_lookup_ne.
      * rewrite (updatePNCounter_lookup_ne _ a x b) by done.
        symmetry. apply updatePNCounter_lookup_self.
        by rewrite updatePNCounter_lookup_ne.
      * by rewrite !updatePNCounter_lookup_ne by done.
Qed.

(** ** Weighted average *)

Lemma calculateWeightedAverage_fold (c : gmap string count)
    (readings : list Contribution) :
  calculateWeightedAverage c readings
  = let acc := foldl (weighted_step c) (Some O, JS.Num 0%Qc) readings in
    match acc.1 with
    | Some t =>
        if bool_decide (0 < t)%nat
        then JS.Number (JS.div acc.2 (JS.of_nat t))
        else JS.Null
    | None => JS.Null
    end.
Proof.
  unfold calculateWeightedAverage.
  assert (∀ acc, foldl (λ '(totalWeight, weightedSum) r,
             let weight := weightOf c (JS.propertyKey (clientId r)) in
             (addWeight totalWeight weight,
              JS.add weightedSum
                (JS.mul (JS.ToNumber (value r)) (weightFactor weight))))
            acc readings = foldl (weighted_step c) acc readings) as ->.
  { induction readings as [|r rs IH]; intros [t s]; [done|]. simpl.
    by rewrite IH. }
  by destruct (foldl (weighted_step c) _ readings).
Qed.

(** The total weight stops being a number as soon as one weight is an
    object, and never becomes one again. *)
Lemma total_weight_None (c : gmap string count)
    (readings : list Contribution) (acc : option nat * JS.number) :
  (foldl (weighted_step c) acc readings).1 = None
  ↔ acc.1 = None ∨ Exists (object_weight c) readings.
Proof.
  revert acc. induction readings as [|r rs IH]; intros acc; simpl.
  - rewrite Exists_nil. tauto.
  - rewrite IH, Exists_cons. unfold weighted_step, object_weight.
    simpl. destruct (acc.1) as [t|],
      (weightOf c (JS.propertyKey (clientId r))); simpl; split;
      intros H; try tauto; destruct H as [H|H]; try done; try tauto;
      destruct H as [H|H]; try done; tauto.
Qed.

Lemma total_weight_grows (c : gmap string count)
    (readings : list Contribution) (acc : option nat * JS.number)
    (t t' : nat) :
  acc.1 = Some t → (foldl (weighted_step c) acc readings).1 = Some t' →
  (t + length readings ≤ t')%nat.
Proof.
  revert acc t. induction readings as [|r rs IH]; intros acc t Ht; simpl.
  - rewrite Ht. intros [= <-]. lia.
  - intros Ht'.
    destruct (weightOf c (JS.propertyKey (clientId r))) as [w|] eqn:Hw.
    + pose proof (weightOf_pos _ _ _ Hw).
      pose proof (IH (weighted_step c acc r) (t + w)%nat) as IH'.
      unfold weighted_step at 1 in IH'. simpl in IH'.
      rewrite Ht, Hw in IH'. simpl in IH'. specialize (IH' eq_refl Ht').
      lia.
    + assert ((foldl (weighted_step c) (weighted_step c acc r) rs).1 = None)
        as Hn.
      { apply total_weight_None. left. unfold weighted_step. simpl.
        rewrite Hw. by destruct (acc.1). }
      rewrite Hn in Ht'. discriminate Ht'.
Qed.

Lemma weighted_sum_NaN (c : gmap string count)
    (readings : list Contribution) (acc : option nat * JS.number) :
  ¬ Exists (object_weight c) readings →
  (foldl (weighted_step c) acc readings).2 = JS.NaN
  ↔ acc.2 = JS.NaN ∨ Exists (λ r, JS.ToNumber (value r) = JS.NaN) readings.
Proof.
  revert acc. induction readings as [|r rs IH]; intros acc Hobj; simpl.
  - rewrite Exists_nil. tauto.
  - rewrite Exists_cons in Hobj.
    rewrite IH, Exists_cons by tauto. unfold weighted_step. simpl.
    unfold object_weight in Hobj.
    destruct (weightOf c (JS.propertyKey (clientId r))) as [w|];
      [|tauto]. simpl.
    destruct (acc.2), (JS.ToNumber (value r)); simpl; split;
      intros H; try tauto; destruct H as [H|H]; try done; try tauto;
      destruct H as [H|H]; try done; tauto.
Qed.

(** The weighted average is null exactly on the empty list and on a list
    with a contribution whose client weighs an inherited function or object;
    on any other list it is a number, and that number is NaN exactly when one
    of the values is [undefined] or NaN. *)
Theorem calculateWeightedAverage_null_and_NaN (c : gmap string count)
    (readings : list Contribution) :
  (calculateWeightedAverage c readings = JS.Null
   ↔ readings = [] ∨ Exists (object_weight c) readings)
  ∧ (readings ≠ [] → ¬ Exists (object_weight c) readings →
     (∃ m, calculateWeightedAverage c readings = JS.Number m)
     ∧ (calculateWeightedAverage c readings = JS.Number JS.NaN
        ↔ Exists (λ r, JS.ToNumber (value r) = JS.NaN) readings)).
Proof.
  rewrite calculateWeightedAverage_fold. cbv zeta.
  pose proof (total_weight_None c readings (Some O, JS.Num 0%Qc)) as Hnone.
  pose proof (total_weight_grows c readings (Some O, JS.Num 0%Qc) O) as Hlen.
  pose proof (weighted_sum_NaN c readings (Some O, JS.Num 0%Qc)) as Hnan.
  simpl in Hnone, Hlen, Hnan.
  set (acc := foldl _ _ readings) in *.
  destruct (acc.1) as [t|] eqn:Ht.
  - assert (¬ Exists (object_weight c) readings) as Hobj.
    { intros H. assert (Some t = None) as [=]. apply Hnone. by right. }
    specialize (Hlen t eq_refl eq_refl). specialize (Hnan Hobj).
    destruct readings as [|r rs].
    + assert (t = O) as -> by (subst acc; simpl in Ht; by injection Ht).
      simpl. split; [split; auto|]. by intros [].
    + simpl length in Hlen. rewrite bool_decide_eq_true_2 by lia.
      split; [split; [done|intros [?|?]; done]|].
      intros _ _. split; [eauto|].
      assert (acc.2 = JS.NaN
              ↔ Exists (λ r', JS.ToNumber (value r') = JS.NaN) (r :: rs))
        as <-.
      { rewrite Hnan. split; [intros [?|?]; done | auto]. }
      assert (Qc_of_Z (Z.of_nat t) ≠ 0%Qc) as Hw.
      { rewrite <- Z2Qc_inj_0. intros H%Z2Qc_inj. lia. }
      unfold JS.of_nat, JS.div.
      destruct (acc.2); [rewrite decide_False by done|]; by split.
  - assert (Exists (object_weight c) readings) as Hobj.
    { destruct (proj1 Hnone eq_refl) as [?|?]; done. }
    split; [split; auto|]. intros _ H. done.
Qed.

(** Evaluated: an absent value makes the average NaN, a null value does
    not, and a client named [toString] makes it null. *)
Lemma calculateWeightedAverage_undefined_is_NaN :
  let absent := {| value := JS.Undefined; clientId := JS.IdNull |} in
  let null := {| value := JS.Null; clientId := JS.IdNull |} in
  let one := {| value := JS.int 1; clientId := JS.IdNull |} in
  let named := {| value := JS.int 1; clientId := JS.IdString "toString" |} in
  calculateWeightedAverage ∅ [one; absent] = JS.Number JS.NaN
  ∧ (∃ m, calculateWeightedAverage ∅ [one; null] = JS.Number m)
  ∧ calculateWeightedAverage ∅ [one; named] = JS.Null.
Proof.
  intros absent null one named.
  assert (∀ r, clientId r = JS.IdNull → ¬ object_weight ∅ r) as Hnull.
  { intros r Hr. unfold object_weight. rewrite Hr. vm_compute.
    discriminate. }
  split; [|split].
  - apply (proj2 (calculateWeightedAverage_null_and_NaN ∅ [one; absent]));
      [discriminate | |].
    + rewrite !Exists_cons, Exists_nil.
      intros [H|[H|[]]]; by apply Hnull in H.
    + apply Exists_cons_tl, Exists_cons_hd. reflexivity.
  - apply (proj2 (calculateWeightedAverage_null_and_NaN ∅ [one; null]));
      [discriminate|].
    rewrite !Exists_cons, Exists_nil.
    intros [H|[H|[]]]; by apply Hnull in H.
  - apply (proj1 (calculateWeightedAverage_null_and_NaN ∅ [one; named])).
    right. apply Exists_cons_tl, Exists_cons_hd. vm_compute. reflexivity.
Defined.

Lemma Qc_weighted_between (x y a b : Qc) :
  (0 < a)%Qc → (0 < b)%Qc → (x ≤ y)%Qc →
  (x ≤ (x * a + y * b) / (a + b))%Qc ∧ ((x * a + y * b) / (a + b) ≤ y)%Qc.
Proof.
  intros Ha Hb Hxy.
  assert (0 < a + b)%Qc as Hab by (by apply Qcplus_pos_pos).
  assert ((a + b)%Qc ≠ 0%Qc) as Hne by (by apply not_eq_sym, Qclt_not_eq).
  split.
  - apply (Qcmult_lt_0_le_reg_r _ _ (a + b)%Qc); [done|].
    replace ((x * a + y * b) / (a + b) * (a + b))%Qc with (x * a + y * b)%Qc
      by (field; done).
    replace (x * (a + b))%Qc with (x * a + x * b)%Qc by ring.
    apply Qcplus_le_mono_l. by apply Qcmult_le_compat_r, Qclt_le_weak.
  - apply (Qcmult_lt_0_le_reg_r _ _ (a + b)%Qc); [done|].
    replace ((x * a + y * b) / (a + b) * (a + b))%Qc with (x * a + y * b)%Qc
      by (field; done).
    replace (y * (a + b))%Qc with (y * a + y * b)%Qc by ring.
    apply Qcplus_le_mono_r. by apply Qcmult_le_compat_r, Qclt_le_weak.
Qed.

(** The average of two contributions whose clients weigh numbers and whose
    values convert to numbers lies between the two numbers, whatever the
    weights. *)
Lemma calculateWeightedAverage_between (c : gmap string count)
    (a b : Contribution) (x y lo hi : Qc) (wa wb : nat) :
  weighs c (clientId a) wa → weighs c (clientId b) wb →
  JS.ToNumber (value a) = JS.Num x → JS.ToNumber (value b) = JS.Num y →
  (lo ≤ x ∧ x ≤ hi)%Qc → (lo ≤ y ∧ y ≤ hi)%Qc →
  ∃ q, calculateWeightedAverage c [a; b] = JS.Number (JS.Num q)
       ∧ (lo ≤ q ∧ q ≤ hi)%Qc.
Proof.
  intros Hwac Hwbc Ha Hb [Hx1 Hx2] [Hy1 Hy2].
  rewrite (calculateWeightedAverage_pair c a b wa wb), Ha, Hb by done.
  simpl.
  rewrite decide_False
    by (apply total_weight_nonzero; by eapply weightOf_pos).
  rewrite Qcplus_0_l. eexists. split; [done|].
  pose proof (weight_pos c _ _ Hwac) as Hwa.
  pose proof (weight_pos c _ _ Hwbc) as Hwb.
  destruct (total Qcle x y) as [Hxy|Hyx].
  - destruct (Qc_weighted_between x y _ _ Hwa Hwb Hxy) as [H1 H2].
    split; [exact (Qcle_trans _ _ _ Hx1 H1) | exact (Qcle_trans _ _ _ H2 Hy2)].
  - destruct (Qc_weighted_between y x _ _ Hwb Hwa Hyx) as [H1 H2].
    rewrite (Qcplus_comm (y * _)), (Qcplus_comm (asQc wb)) in H1, H2.
    split; [exact (Qcle_trans _ _ _ Hy1 H1) | exact (Qcle_trans _ _ _ H2 Hx2)].
Qed.

(** ** Reconciliation keeps values in range

    When the two clients weigh numbers and the latest row's field and the
    submitted field are each null or a number inside the validator's range of
    that quantity, the merged field is a number inside that range: it lies
    between the two numbers, a null side counting as 0, and it is never
    null. *)
Theorem resolvedData_stays_in_range (c : gmap string count)
    (latest : SensorReading) (rest : list SensorReading)
    (incomingClient : JS.ident) (sd : gmap string JS.value) (f : Quantity)
    (w_latest w_incoming : nat) :
  weighs c (row_clientId latest) w_latest →
  weighs c incomingClient w_incoming →
  (column f (quantities latest) = JS.Null
   ∨ ∃ x, column f (quantities latest) = JS.Number (JS.Num x) ∧ in_range f x) →
  (JS.get sd (key f) = JS.Null
   ∨ ∃ y, JS.get sd (key f) = JS.Number (JS.Num y) ∧ in_range f y) →
  ∃ q, JS.get (resolvedData c (latest :: rest) incomingClient sd) (key f)
       = JS.Number (JS.Num q)
       ∧ in_range f q.
Proof.
  intros Hwl Hwi Hl Hi. rewrite resolvedData_get.
  assert (in_range f 0%Qc) as H0.
  { unfold in_range. rewrite <- Z2Qc_inj_0.
    split; apply (proj1 (Z2Qc_inj_le _ _)); destruct f; simpl; lia. }
  assert (∀ v, (v = JS.Null ∨ ∃ x, v = JS.Number (JS.Num x) ∧ in_range f x) →
               ∃ x, JS.ToNumber v = JS.Num x ∧ in_range f x) as Hnum.
  { intros v [->|(x & -> & Hx)]; eauto. }
  destruct (Hnum _ Hl) as (x & Hx & Hxr), (Hnum _ Hi) as (y & Hy & Hyr).
  by apply (calculateWeightedAverage_between c _ _ x y _ _ w_latest
              w_incoming).
Qed.

(** Evaluated on temperature: latest 50 and submitted null merge to a number
    in [-50, 50]. *)
Lemma resolvedData_stays_in_range_at_50 :
  ∃ q, JS.get (resolvedData ∅ [Example.row 3 (JS.int 50) JS.Null]
                 JS.IdUndefined {[ "temperature" := JS.Null ]}) "temperature"
       = JS.Number (JS.Num q)
       ∧ in_range Temperature q.
Proof.
  apply (resolvedData_stays_in_range ∅ (Example.row 3 (JS.int 50) JS.Null) []
           JS.IdUndefined {[ "temperature" := JS.Null ]} Temperature 1 1).
  - vm_compute. reflexivity.
  - vm_compute. reflexivity.
  - right. exists (Qc_of_Z 50). split; [reflexivity|].
    split; vm_compute; discriminate.
  - left. vm_compute. reflexivity.
Defined.

(** When both clients weigh 1 and both sides hold a number the weighted
    merge is the unused pairwise resolver's answer, the plain mean. *)
Theorem calculateWeightedAverage_agrees_with_resolveValue
    (c : gmap string count) (a b : Contribution) (x y : Qc) :
  value a = JS.Number (JS.Num x) → value b = JS.Number (JS.Num y) →
  weightOf c (JS.propertyKey (clientId a)) = WeightNumber 1 →
  weightOf c (JS.propertyKey (clientId b)) = WeightNumber 1 →
  calculateWeightedAverage c [a; b] = resolveValue (value a) (value b)
  ∧ resolveValue (value a) (value b) = JS.Number (JS.Num ((x + y) / 2)%Qc).
Proof.
  intros Ha Hb Hwa Hwb.
  rewrite (calculateWeightedAverage_numbers c a b x y 1 1) by done.
  unfold asQc. rewrite Ha, Hb.
  change (Z.of_nat 1) with 1%Z. rewrite Z2Qc_inj_1, !Qcmult_1_r.
  unfold resolveValue. simpl. by rewrite Z2Qc_inj_2.
Qed.

Lemma calculateWeightedAverage_agrees_at_20_and_22 :
  let a := {| value := JS.int 20; clientId := JS.IdUndefined |} in
  let b := {| value := JS.int 22; clientId := JS.IdString "app-1" |} in
  calculateWeightedAverage ∅ [a; b] = resolveValue (JS.int 20) (JS.int 22).
Proof.
  intros a b.
  apply (calculateWeightedAverage_agrees_with_resolveValue ∅ a b
           (Qc_of_Z 20) (Qc_of_Z 22));
    [reflexivity | reflexivity | vm_compute; reflexivity
    | vm_compute; reflexivity].
Defined.

(** ** Ingestion: what reaches the store *)

Lemma resolvedData_other (c : gmap string count)
    (recentReadings : list SensorReading) (i : JS.ident)
    (sd : gmap string JS.value) (k : string) :
  (∀ f, k ≠ key f) →
  resolvedData c recentReadings i sd !! k = sd !! k.
Proof.
  intros Hk. destruct recentReadings as [|latest rest]; [done|].
  unfold resolvedData.
  pose proof (Hk Temperature). pose proof (Hk Humidity).
  pose proof (Hk Pm25). pose proof (Hk Pm10). pose proof (Hk Co2).
  pose proof (Hk Tvoc). simpl in *.
  by rewrite !lookup_insert_ne by done.
Qed.

(** The outcome of an ingestion request, by cases on what the store does. *)
Lemma post_readings_queries (prisma : Prisma) (now : Z) (body : Body)
    (st : Counters) (data : CreateData) :
  QCreate data ∈ (post_readings prisma now body st).2 →
  accepted body = true
  ∧ ∃ device recent,
      device_upsert prisma (device_id body) = Returned device
      ∧ sensorReading_findRecent prisma (device_id body) (now - window_ms)
        = Returned recent
      ∧ data = createData device body
                 (resolvedData (clientReadingsCounter (recorded body st))
                    recent (client_id body) (sensorData body)).
Proof.
  destruct (accepted body) eqn:Hacc.
  - rewrite post_readings_accepted by done. cbv zeta.
    destruct (device_upsert _ _) as [device|]; simpl.
    + destruct (sensorReading_findRecent _ _ _) as [recent|]; simpl.
      * intros Hin. split; [done|]. exists device, recent.
        assert (QCreate data ∈
                  [QUpsert (device_id body);
                   QFindRecent (device_id body) (now - window_ms);
                   QCreate (createData device body
                     (resolvedData (clientReadingsCounter (recorded body st))
                        recent (client_id body) (sensorData body)))]) as Hin'
          by (by destruct (sensorReading_create _ _)).
        rewrite !elem_of_cons, elem_of_nil in Hin'.
        destruct Hin' as [[=]|[[=]|[[= ->]|[]]]]. done.
      * rewrite !elem_of_cons, elem_of_nil. intros [[=]|[[=]|[]]].
    + rewrite !elem_of_cons, elem_of_nil. intros [[=]|[]].
  - destruct (post_readings_rejected prisma now body st Hacc) as [e ->].
    simpl. by intros ?%elem_of_nil.
Qed.

(** Whatever data the handler hands to [create], its [pm25] is the legacy
    [pm2_5] of the body, never the submitted or merged [pm25]; every own
    property of the body outside the six quantities is forwarded unchanged;
    and, the spread coming after them, [deviceIdRef] is the id of the device
    that [upsert] returned and [clientTimestamp] the date of the body's
    [client_timestamp] only when the body has no property of that name:
    otherwise each holds the body's value. *)
Theorem create_receives_alias_and_other_properties (prisma : Prisma)
    (now : Z) (body : Body) (st : Counters) (data : CreateData) :
  QCreate data ∈ (post_readings prisma now body st).2 →
  JS.get (data_fields data) "pm25" = pm2_5 body
  ∧ (∀ k, (∀ f, k ≠ key f) →
       data_fields data !! k = sensorData body !! k)
  ∧ ∃ device,
      device_upsert prisma (device_id body) = Returned device
      ∧ data_deviceIdRef data
        = match sensorData body !! "deviceIdRef" with
          | Some v => v
          | None => JS.int (device_pk device)
          end
      ∧ data_clientTimestamp data
        = match sensorData body !! "clientTimestamp" with
          | Some v => FromBody v
          | None =>
              match client_timestamp body with
              | Some s =>
                  if bool_decide (s = ""%string) then NoDate else DateOf s
              | None => NoDate
              end
          end.
Proof.
  intros (_ & device & recent & Hup & _ & ->)%post_readings_queries.
  split; [|split].
  - unfold JS.get. simpl. by rewrite lookup_insert_eq.
  - intros k Hk. simpl.
    rewrite lookup_insert_ne by (apply not_eq_sym, (Hk Pm25)).
    by apply resolvedData_other.
  - exists device. split; [done|]. simpl.
    rewrite !resolvedData_other by (intros []; discriminate). done.
Qed.

(** Evaluated: the submission carries pm25 12, the legacy pm2_5 9999, a
    battery level and a property deviceIdRef 99; a row is in the window. The
    data handed to [create] has pm25 9999, battery 3 and deviceIdRef 99,
    although the device's id is 1. *)
Lemma create_receives_alias_9999 :
  let body := Example.body (JS.int 9999)
                {[ "pm25" := JS.int 12; "battery" := JS.int 3;
                   "deviceIdRef" := JS.int 99 ]} in
  ∃ data,
    (post_readings (Example.prisma_ok [Example.row 3 JS.Null JS.Null] [])
       Example.now body no_counters).2 !! 2%nat = Some (QCreate data)
    ∧ JS.get (data_fields data) "pm25" = JS.int 9999
    ∧ data_fields data !! "battery"%string = Some (JS.int 3)
    ∧ data_deviceIdRef data = JS.int 99.
Proof.
  intros body. eexists. split; [vm_compute; reflexivity|].
  match goal with
  | |- JS.get (data_fields ?d) _ = _ ∧ _ =>
      destruct (create_receives_alias_and_other_properties
                  (Example.prisma_ok [Example.row 3 JS.Null JS.Null] [])
                  Example.now body no_counters d)
        as (Halias & Hother & device & Hup & Href & _)
  end.
  - apply list_elem_of_lookup. exists 2%nat. vm_compute. reflexivity.
  - split; [exact Halias|]. split.
    + rewrite (Hother "battery"%string); [vm_compute; reflexivity|].
      intros []; discriminate.
    + rewrite Href. vm_compute. reflexivity.
Defined.

(** ** Ingestion: queries, response and counters *)

(** A request is answered 400 exactly when it is not accepted, and then no
    query is issued. An accepted request issues upsert, the window query and
    create in this order and stops at the first that throws: when upsert
    throws, it is the only query and the answer is 500 with its message; when
    the window query throws, these two are the only queries and the answer is
    500 with its message; otherwise create is issued third, and the answer is
    500 with its message when it throws and 201 with the row it returned,
    the device key added and [deviceIdRef] removed, when it returns. The
    window query asks for rows from 300000 ms before the clock. *)
Theorem post_readings_protocol (prisma : Prisma) (now : Z) (body : Body)
    (st : Counters) :
  let result := post_readings prisma now body st in
  let upsert := device_upsert prisma (device_id body) in
  let find :=
    sensorReading_findRecent prisma (device_id body) (now - 300000) in
  let q1 := QUpsert (device_id body) in
  let q2 := QFindRecent (device_id body) (now - 300000) in
  let failed := Json500 "Failed to store sensor reading." in
  (accepted body = false ↔ ∃ error, result.1.1 = Json400 error)
  ∧ (accepted body = false ↔ result.2 = [])
  ∧ (accepted body = true →
     (∀ message, upsert = Thrown message →
        result.1.1 = failed message ∧ result.2 = [q1])
     ∧ (∀ device message, upsert = Returned device → find = Thrown message →
          result.1.1 = failed message ∧ result.2 = [q1; q2])
     ∧ (∀ device recent, upsert = Returned device → find = Returned recent →
          let data :=
            createData device body
              (resolvedData (clientReadingsCounter (recorded body st)) recent
                 (client_id body) (sensorData body)) in
          result.2 = [q1; q2; QCreate data]
          ∧ (∀ message, sensorReading_create prisma data = Thrown message →
               result.1.1 = failed message)
          ∧ (∀ newReading,
               sensorReading_create prisma data = Returned newReading →
               result.1.1
               = Json201 (withDeviceId (JS.propertyKey (device_id body))
                                       newReading))))
  ∧ (∀ row, result.1.1 = Json201 row →
       deviceIdRef row = None
       ∧ device_id_of row = Some (JS.propertyKey (device_id body))).
Proof.
  cbv zeta. change (now - 300000) with (now - window_ms).
  destruct (accepted body) eqn:Hacc.
  - rewrite post_readings_accepted by done. cbv zeta.
    destruct (device_upsert _ _) as [device|]; simpl.
    + destruct (sensorReading_findRecent _ _ _) as [recent|]; simpl.
      * destruct (sensorReading_create _ _) as [newReading|] eqn:Hc; simpl.
        -- split; [split; [done|by intros [? [=]]]|].
           split; [split; done|]. split.
           ++ intros _. split; [done|]. split; [done|].
              intros device' recent' [= <-] [= <-]. rewrite Hc.
              split; [done|]. split; [done|]. by intros ? [= <-].
           ++ by intros row [= <-].
        -- split; [split; [done|by intros [? [=]]]|].
           split; [split; done|]. split.
           ++ intros _. split; [done|]. split; [done|].
              intros device' recent' [= <-] [= <-]. rewrite Hc.
              split; [done|]. split; [by intros ? [= <-]|done].
           ++ done.
      * split; [split; [done|by intros [? [=]]]|].
        split; [split; done|]. split; [|done].
        intros _. split; [done|]. split; [|done].
        by intros device' m' [= <-] [= <-].
    + split; [split; [done|by intros [? [=]]]|].
      split; [split; done|]. split; [|done].
      intros _. split; [by intros ? [= <-]|]. split; done.
  - destruct (post_readings_rejected prisma now body st Hacc) as [e ->].
    simpl. split; [split; eauto|]. split; [done|]. split; done.
Qed.

(** Evaluated on three stores: one that is down, one whose window query
    throws, one that works. *)
Lemma post_readings_protocol_on_three_stores :
  let body := Example.body JS.Undefined {[ "temperature" := JS.int 21 ]} in
  let queries (prisma : Prisma) :=
    (post_readings prisma Example.now body no_counters).2 in
  queries Example.prisma_down = [QUpsert (JS.IdString "dev-1")]
  ∧ queries Example.prisma_no_find
    = [QUpsert (JS.IdString "dev-1");
       QFindRecent (JS.IdString "dev-1") (Example.now - 300000)]
  ∧ length (queries (Example.prisma_ok [] [])) = 3%nat.
Proof.
  intros body queries.
  assert (accepted body = true) as Hacc by (vm_compute; reflexivity).
  split; [|split].
  - destruct (post_readings_protocol Example.prisma_down Example.now body
                no_counters) as (_ & _ & H & _).
    destruct (H Hacc) as (Hdown & _).
    exact (proj2 (Hdown "connection refused"%string eq_refl)).
  - destruct (post_readings_protocol Example.prisma_no_find Example.now body
                no_counters) as (_ & _ & H & _).
    destruct (H Hacc) as (_ & Hfind & _).
    exact (proj2 (Hfind Example.device "query timed out"%string eq_refl
                    eq_refl)).
  - destruct (post_readings_protocol (Example.prisma_ok [] []) Example.now
                body no_counters) as (_ & _ & H & _).
    destruct (H Hacc) as (_ & _ & Hok).
    destruct (Hok Example.device [] eq_refl eq_refl) as (Hqs & _).
    unfold queries. rewrite Hqs. reflexivity.
Defined.

Lemma post_readings_counters_eq (prisma : Prisma) (now : Z) (body : Body)
    (st : Counters) :
  (post_readings prisma now body st).1.2
  = if accepted body then recorded body st else st.
Proof.
  destruct (accepted body) eqn:Hacc.
  - rewrite post_readings_accepted by done. cbv zeta.
    destruct (device_upsert _ _); [|done].
    destruct (sensorReading_findRecent _ _ _); [|done].
    by destruct (sensorReading_create _ _).
  - by destruct (post_readings_rejected prisma now body st Hacc) as [e ->].
Qed.

Lemma recorded_clientCount (body : Body) (st : Counters) (k : string) :
  JS.inherited k = false →
  clientCount (recorded body st) k
  = (clientCount st k
     + if decide (JS.propertyKey (client_id body) = k) then 1%nat
       else 0%nat)%nat.
Proof.
  intros Hk. unfold clientCount, recorded. simpl. case_decide as Hc.
  - subst k. rewrite updateGCounter_lookup by done. simpl. lia.
  - rewrite updateGCounter_lookup_ne by done. lia.
Qed.

Lemma recorded_totalFor (body : Body) (st : Counters) (k : string) :
  JS.inherited k = false →
  totalFor (deviceReadingsCounter (recorded body st)) k
  = totalFor (deviceReadingsCounter st) k
    + if decide (JS.propertyKey (device_id body) = k) then 1 else 0.
Proof.
  intros Hk. unfold recorded. simpl. by apply totalFor_updatePNCounter.
Qed.

(** One recording never lowers a client's count and raises it by at most
    one, whatever the name. *)
Lemma updateGCounter_monotone (c : gmap string count) (a k : string) :
  (countOf (c !! k) ≤ countOf (updateGCounter a c !! k)
   ≤ S (countOf (c !! k)))%nat.
Proof.
  destruct (decide (a = k)) as [->|Hne];
    [|rewrite updateGCounter_lookup_ne by done; lia].
  destruct (decide (k = "__proto__"%string)) as [->|Hp].
  - replace (updateGCounter "__proto__" c) with c; [lia|].
    unfold updateGCounter. simpl. reflexivity.
  - rewrite updateGCounter_countOf by done.
    destruct (c !! k); [lia|]. simpl. destruct (JS.inherited k); lia.
Qed.

(** One increment leaves every n as it was and lowers no p. *)
Lemma updatePNCounter_monotone (d : gmap string PN) (a k : string) :
  from_option n O (updatePNCounter a true d !! k) = from_option n O (d !! k)
  ∧ (from_option p O (d !! k)
     ≤ from_option p O (updatePNCounter a true d !! k))%nat
  ∧ totalFor d k ≤ totalFor (updatePNCounter a true d) k.
Proof.
  destruct (decide (a = k)) as [->|Hne].
  - unfold totalFor, updatePNCounter, JS.read.
    case_bool_decide; [done|].
    destruct (d !! k) as [e|] eqn:E; simpl;
      repeat (rewrite ?lookup_insert_eq, ?E; simpl); [lia|].
    destruct (JS.inherited k); simpl;
      repeat (rewrite ?lookup_insert_eq, ?E; simpl); lia.
  - rewrite (totalFor_lookup_ne d (updatePNCounter a true d) k)
      by (by apply updatePNCounter_lookup_ne).
    rewrite updatePNCounter_lookup_ne by done. lia.
Qed.

(** The counters only grow through ingestion. A request that is not
    accepted leaves them as they were. An accepted one, whatever the store
    does, changes no entry but that of its client and that of its device; it
    raises the client's G-counter and the device's p by one when their names
    are not inherited from [Object.prototype]. No request lowers a client's
    count, changes an n or lowers a device total. *)
Theorem post_readings_counters_grow (prisma : Prisma) (now : Z)
    (body : Body) (st : Counters) (k : string) :
  let st' := (post_readings prisma now body st).1.2 in
  let client := JS.propertyKey (client_id body) in
  let device := JS.propertyKey (device_id body) in
  (accepted body = false → st' = st)
  ∧ (client ≠ k → clientReadingsCounter st' !! k = clientReadingsCounter st !! k)
  ∧ (device ≠ k → deviceReadingsCounter st' !! k = deviceReadingsCounter st !! k)
  ∧ (accepted body = true → JS.inherited client = false →
     clientCount st' client = S (clientCount st client))
  ∧ (accepted body = true → JS.inherited device = false →
     from_option p O (deviceReadingsCounter st' !! device)
     = S (from_option p O (deviceReadingsCounter st !! device)))
  ∧ (clientCount st k ≤ clientCount st' k)%nat
  ∧ from_option n O (deviceReadingsCounter st' !! k)
    = from_option n O (deviceReadingsCounter st !! k)
  ∧ totalFor (deviceReadingsCounter st) k
    ≤ totalFor (deviceReadingsCounter st') k.
Proof.
  cbv zeta. rewrite post_readings_counters_eq.
  destruct (accepted body); [|repeat split; (done || lia)].
  unfold recorded, clientCount. simpl.
  pose proof (updateGCounter_monotone (clientReadingsCounter st)
                (JS.propertyKey (client_id body)) k) as Hc.
  destruct (updatePNCounter_monotone (deviceReadingsCounter st)
              (JS.propertyKey (device_id body)) k) as (Hn & _ & Ht).
  split; [done|]. split; [by apply updateGCounter_lookup_ne|].
  split; [by apply updatePNCounter_lookup_ne|]. split.
  { intros _ H. by rewrite updateGCounter_lookup. }
  split.
  { intros _ H. rewrite updatePNCounter_lookup by done.
    destruct (deviceReadingsCounter st !! JS.propertyKey (device_id body));
      reflexivity. }
  split; [lia|]. split; [done|lia].
Qed.

Lemma post_readings_counters_grow_dev_1 :
  let body := Example.body JS.Undefined {[ "temperature" := JS.int 21 ]} in
  let st' :=
    (post_readings Example.prisma_down Example.now body no_counters).1.2 in
  clientCount st' "app-1" = 1%nat
  ∧ from_option p O (deviceReadingsCounter st' !! "dev-1") = 1%nat
  ∧ deviceReadingsCounter st' !! "dev-2" = None.
Proof.
  intros body st'.
  destruct (post_readings_counters_grow Example.prisma_down Example.now body
              no_counters "dev-2")
    as (_ & _ & Hother & Hclient & Hdevice & _).
  split; [|split].
  - apply Hclient; vm_compute; reflexivity.
  - apply Hdevice; vm_compute; reflexivity.
  - etransitivity; [apply Hother; simpl; discriminate | reflexivity].
Defined.

Lemma ingest_all_growth (requests : list (Prisma * Z * Body))
    (st : Counters) (k : string) :
  JS.inherited k = false →
  totalFor (deviceReadingsCounter (ingest_all requests st)) k
  = totalFor (deviceReadingsCounter st) k
    + Z.of_nat (accepted_for_device k requests)
  ∧ clientCount (ingest_all requests st) k
    = (clientCount st k + accepted_for_client k requests)%nat.
Proof.
  intros Hk. unfold ingest_all, accepted_for_device, accepted_for_client.
  revert st. induction requests as [|[[prisma now] body] rs IH]; intros st.
  - simpl. split; lia.
  - simpl foldl. destruct (IH (post_readings prisma now body st).1.2)
      as [IHd IHc]. rewrite IHd, IHc, post_readings_counters_eq.
    rewrite !filter_cons. simpl.
    destruct (accepted body).
    + rewrite recorded_totalFor, recorded_clientCount by done.
      repeat case_decide; simpl; try lia; exfalso; tauto.
    + repeat case_decide; simpl; try lia; exfalso;
        repeat match goal with H : _ ∧ _ |- _ => destruct H end; done.
Qed.

(** After any sequence of ingestion requests, run against whatever stores
    and clocks, the total of a device whose name is not an inherited
    property name has grown by the number of accepted requests naming it,
    and the G-counter of such a client by the number of accepted requests
    naming that client, store failures included. *)
Theorem ingest_all_counts (requests : list (Prisma * Z * Body))
    (st : Counters) (k : string) :
  JS.inherited k = false →
  totalFor (deviceReadingsCounter (ingest_all requests st)) k
  = totalFor (deviceReadingsCounter st) k
    + Z.of_nat (accepted_for_device k requests)
  ∧ clientCount (ingest_all requests st) k
    = (clientCount st k + accepted_for_client k requests)%nat.
Proof. apply ingest_all_growth. Qed.

Lemma ingest_all_counts_three :
  let body := Example.body JS.Undefined {[ "temperature" := JS.int 21 ]} in
  let st' :=
    ingest_all (replicate 3 (Example.prisma_down, Example.now, body))
               no_counters in
  totalFor (deviceReadingsCounter st') "dev-1" = 3
  ∧ clientCount st' "app-1" = 3%nat.
Proof.
  intros body st'. split.
  - etransitivity;
      [apply (proj1 (ingest_all_counts
                (replicate 3 (Example.prisma_down, Example.now, body))
                no_counters "dev-1" eq_refl))
      | vm_compute; reflexivity].
  - etransitivity;
      [apply (proj2 (ingest_all_counts
                (replicate 3 (Example.prisma_down, Example.now, body))
                no_counters "app-1" eq_refl))
      | vm_compute; reflexivity].
Defined.

(** From a fresh process, a device whose name is not an inherited property
    name is served simulated data exactly as long as fewer than five
    accepted submissions have named it, whether or not any of them was
    stored and whatever the store returns on retrieval. *)
Theorem simulation_until_five_accepted (requests : list (Prisma * Z * Body))
    (prisma : Prisma) (rnd : Draws) (deviceId : string)
    (parsedLimit : option Z) (readings : list SensorReading) :
  JS.inherited deviceId = false →
  sensorReading_findMany prisma deviceId (clampLimit parsedLimit)
    = Returned readings →
  let response :=
    (get_readings prisma rnd deviceId parsedLimit
       (ingest_all requests no_counters)).1 in
  ((accepted_for_device deviceId requests < 5)%nat →
   response = Json200Simulation
                "Insufficient data. Switching to simulation mode."
                (generateDummyData rnd))
  ∧ ((5 ≤ accepted_for_device deviceId requests)%nat →
     ∀ message data, response ≠ Json200Simulation message data).
Proof.
  intros Hk Hfind. cbv zeta. unfold get_readings. rewrite Hfind.
  destruct (ingest_all_growth requests no_counters deviceId Hk) as [-> _].
  replace (totalFor (deviceReadingsCounter no_counters) deviceId) with 0
    by (unfold totalFor; by rewrite read_not_inherited).
  split.
  - intros Hlt. rewrite (proj2 (Z.ltb_lt _ _)) by lia. done.
  - intros Hge message data. rewrite (proj2 (Z.ltb_ge _ _)) by lia.
    by destruct (length readings =? 0)%nat.
Qed.

(** Evaluated: five valid submissions against a store that is down still
    end the simulation mode of dev-1; four do not. *)
Lemma simulation_ends_after_five_failed_stores :
  let body := Example.body JS.Undefined {[ "temperature" := JS.int 21 ]} in
  let request := (Example.prisma_down, Example.now, body) in
  let retrieve (requests : list (Prisma * Z * Body)) :=
    (get_readings (Example.prisma_ok [] []) Example.draws "dev-1" None
       (ingest_all requests no_counters)).1 in
  retrieve (replicate 4 request)
  = Json200Simulation "Insufficient data. Switching to simulation mode."
                      (generateDummyData Example.draws)
  ∧ ∀ message data,
      retrieve (replicate 5 request) ≠ Json200Simulation message data.
Proof.
  intros body request retrieve. split.
  - apply (simulation_until_five_accepted (replicate 4 request)
             (Example.prisma_ok [] []) Example.draws "dev-1" None []
             eq_refl eq_refl).
    vm_compute. lia.
  - apply (simulation_until_five_accepted (replicate 5 request)
             (Example.prisma_ok [] []) Example.draws "dev-1" None []
             eq_refl eq_refl).
    vm_compute. lia.
Defined.

(** ** Retrieval: limit, simulated values and null filling *)

(** The limit handed to the store is always between 1 and 1000: a parsed
    limit in that interval is kept, any other one, and a parameter that does
    not parse, becomes 10; and a retrieval issues exactly one query, with
    that limit. *)
Theorem clampLimit_bounds (parsed : option Z) :
  1 ≤ clampLimit parsed ≤ 1000
  ∧ (∀ limit, parsed = Some limit → 1 ≤ limit ≤ 1000 →
       clampLimit parsed = limit)
  ∧ (∀ limit, parsed = Some limit → limit ≤ 0 ∨ 1000 < limit →
       clampLimit parsed = 10)
  ∧ (parsed = None → clampLimit parsed = 10)
  ∧ ∀ prisma rnd deviceId st,
      (get_readings prisma rnd deviceId parsed st).2
      = [QFindMany deviceId (clampLimit parsed)].
Proof.
  unfold clampLimit. repeat split.
  - destruct parsed as [limit|]; [|lia].
    destruct (limit <=? 0) eqn:E1, (1000 <? limit) eqn:E2; simpl; lia.
  - destruct parsed as [limit|]; [|lia].
    destruct (limit <=? 0) eqn:E1, (1000 <? limit) eqn:E2; simpl; lia.
  - intros limit -> Hin.
    destruct (limit <=? 0) eqn:E1, (1000 <? limit) eqn:E2; simpl; lia.
  - intros limit -> Hout.
    destruct (limit <=? 0) eqn:E1, (1000 <? limit) eqn:E2; simpl; lia.
  - by intros ->.
  - intros prisma rnd deviceId st. unfold get_readings, clampLimit.
    destruct (sensorReading_findMany _ _ _); [|done].
    destruct (_ <? 5); [done|]. by destruct (_ =? _)%nat.
Qed.

Lemma clampLimit_at_0_1000_1500 :
  clampLimit (Some 0) = 10 ∧ clampLimit (Some 1500) = 10
  ∧ clampLimit (Some 1000) = 1000 ∧ clampLimit None = 10.
Proof.
  split; [|split; [|split]].
  - apply (proj1 (proj2 (proj2 (clampLimit_bounds (Some 0)))) 0 eq_refl). lia.
  - apply (proj1 (proj2 (proj2 (clampLimit_bounds (Some 1500)))) 1500
             eq_refl). lia.
  - apply (proj1 (proj2 (clampLimit_bounds (Some 1000))) 1000 eq_refl). lia.
  - apply (proj1 (proj2 (proj2 (proj2 (clampLimit_bounds None)))) eq_refl).
Defined.

Lemma toFixed_bounds (f : nat) (x : Qc) (lo hi : Z) :
  (Qc_of_Z lo ≤ x)%Qc → (x ≤ Qc_of_Z hi)%Qc →
  (Qc_of_Z lo ≤ toFixed f x)%Qc ∧ (toFixed f x ≤ Qc_of_Z hi)%Qc.
Proof.
  intros Hlo Hhi. unfold toFixed.
  set (scale := 10 ^ Z.of_nat f).
  assert (0 < scale) as Hscale by (apply Z.pow_pos_nonneg; lia).
  assert (0 < inject_Z scale)%Q as Hscale'
    by (change 0%Q with (inject_Z 0); by rewrite <- Zlt_Qlt).
  set (m := Qfloor (x * Qc_of_Z scale + Q2Qc (1 # 2))%Qc).
  assert (lo * scale ≤ m ∧ m ≤ hi * scale) as [Hm1 Hm2].
  { unfold m. unfold Qcle in Hlo, Hhi. simpl in Hlo, Hhi.
    assert ((x * Qc_of_Z scale + Q2Qc (1 # 2))%Qc
            == x * inject_Z scale + (1 # 2))%Q as E.
    { simpl. etransitivity; [apply Qred_correct|].
      apply Qplus_comp; apply Qred_correct. }
    rewrite (Qfloor_comp _ _ E). split.
    - rewrite <- (Qfloor_Z (lo * scale)). apply Qfloor_resp_le.
      rewrite inject_Z_mult. nra.
    - assert (Qfloor (x * inject_Z scale + (1 # 2)) < hi * scale + 1);
        [|lia].
      rewrite Zlt_Qlt. eapply Qle_lt_trans; [apply Qfloor_le|].
      rewrite inject_Z_plus, inject_Z_mult.
      change (inject_Z 1) with 1%Q. nra. }
  unfold Qcle. simpl. setoid_rewrite Qred_correct.
  unfold Qle. simpl. rewrite !Z.mul_1_r. rewrite Z2Pos.id by done. done.
Qed.

Lemma draw_bounds (base span : Z) (r : Qc) :
  0 ≤ span → (0 ≤ r)%Qc → (r ≤ 1)%Qc →
  (Qc_of_Z base ≤ Qc_of_Z base + r * Qc_of_Z span)%Qc
  ∧ (Qc_of_Z base + r * Qc_of_Z span ≤ Qc_of_Z (base + span))%Qc.
Proof.
  intros Hspan Hr0 Hr1.
  assert (0 ≤ Qc_of_Z span)%Qc as Hs
    by (rewrite <- Z2Qc_inj_0; by apply (proj1 (Z2Qc_inj_le _ _))).
  split.
  - rewrite <- (Qcplus_0_r (Qc_of_Z base)) at 1.
    apply Qcplus_le_mono_l. by apply Qcmult_nonneg_nonneg.
  - rewrite Z2Qc_inj_add. apply Qcplus_le_mono_l.
    rewrite <- (Qcmult_1_l (Qc_of_Z span)) at 2.
    by apply Qcmult_le_compat_r.
Qed.

(** Simulated data is always plausible: with every draw in [0, 1] each of
    the six simulated fields is a number inside the interval the code
    documents for it, and so inside the validator's range as well. *)
Theorem generateDummyData_in_range (rnd : Draws) (f : Quantity) :
  (0 ≤ draw_of f rnd)%Qc → (draw_of f rnd ≤ 1)%Qc →
  ∃ q, column f (generateDummyData rnd) = JS.Number (JS.Num q)
       ∧ (Qc_of_Z (simulated_range f).1 ≤ q)%Qc
       ∧ (q ≤ Qc_of_Z (simulated_range f).2)%Qc
       ∧ in_range f q.
Proof.
  intros H0 H1.
  assert (∀ (digits : nat) (base span lo hi : Z) (r : Qc),
            0 ≤ span → (0 ≤ r)%Qc → (r ≤ 1)%Qc →
            lo ≤ base → base + span ≤ hi →
            let q := toFixed digits (Qc_of_Z base + r * Qc_of_Z span)%Qc in
            (Qc_of_Z base ≤ q)%Qc ∧ (q ≤ Qc_of_Z (base + span))%Qc
            ∧ (Qc_of_Z lo ≤ q)%Qc ∧ (q ≤ Qc_of_Z hi)%Qc) as Hdraw.
  { intros digits base span lo hi r Hspan Hr0 Hr1 Hlo Hhi q.
    destruct (draw_bounds base span r Hspan Hr0 Hr1) as [Hb1 Hb2].
    destruct (toFixed_bounds digits _ base (base + span) Hb1 Hb2)
      as [Hq1 Hq2].
    fold q in Hq1, Hq2. repeat split; [done..| |].
    - eapply Qcle_trans; [|exact Hq1]. by apply (proj1 (Z2Qc_inj_le _ _)).
    - eapply Qcle_trans; [exact Hq2|]. by apply (proj1 (Z2Qc_inj_le _ _)). }
  unfold in_range.
  destruct f; simpl in *; eexists; (split; [reflexivity|]).
  - apply (Hdraw 2%nat 20 10 (-50) 50); [lia|done|done|lia|lia].
  - apply (Hdraw 2%nat 40 30 0 100); [lia|done|done|lia|lia].
  - apply (Hdraw 2%nat 5 30 0 500); [lia|done|done|lia|lia].
  - apply (Hdraw 2%nat 10 40 0 500); [lia|done|done|lia|lia].
  - apply (Hdraw 0%nat 400 600 0 5000); [lia|done|done|lia|lia].
  - apply (Hdraw 0%nat 50 250 0 1000); [lia|done|done|lia|lia].
Qed.

Lemma generateDummyData_in_range_at_zero :
  ∃ q, temperature (generateDummyData Example.draws) = JS.Number (JS.Num q)
       ∧ (Qc_of_Z 20 ≤ q)%Qc ∧ (q ≤ Qc_of_Z 30)%Qc
       ∧ in_range Temperature q.
Proof.
  apply (generateDummyData_in_range Example.draws Temperature);
    vm_compute; discriminate.
Defined.

(** ** Null filling *)

Lemma Values_ext (a b : Values) :
  (∀ f, column f a = column f b) → a = b.
Proof.
  intros H. destruct a, b.
  pose proof (H Temperature). pose proof (H Humidity). pose proof (H Pm25).
  pose proof (H Pm10). pose proof (H Co2). pose proof (H Tvoc).
  simpl in *. congruence.
Qed.

Lemma interpolatedReadings_frame (readings : list SensorReading)
    (index : nat) (reading : SensorReading) :
  readings !! index = Some reading →
  ∃ filled,
    interpolatedReadings readings !! index = Some filled
    ∧ id filled = id reading
    ∧ deviceIdRef filled = deviceIdRef reading
    ∧ device_id_of filled = device_id_of reading
    ∧ timestamp filled = timestamp reading
    ∧ clientTimestamp filled = clientTimestamp reading
    ∧ row_clientId filled = row_clientId reading
    ∧ ∀ f, JS.nullish (column f (quantities reading)) = false →
           column f (quantities filled) = column f (quantities reading).
Proof.
  intros Hr. unfold interpolatedReadings.
  rewrite list_lookup_imap, Hr. cbn [fmap option_fmap option_map].
  eexists. split; [reflexivity|].
  destruct ((index =? 0)%nat || (index + 1 =? length readings)%nat);
    [by repeat split|].
  destruct (readings !! (index - 1)%nat), (readings !! (index + 1)%nat);
    try by repeat split.
  repeat split. intros f Hf.
  destruct f; simpl in *; unfold JS.coalesce; by rewrite Hf.
Qed.

(** The pass fills and never overwrites: every reading keeps its place, its
    id, keys and timestamps, and every quantity field that is not null or
    absent. *)
Theorem interpolatedReadings_keeps_present (readings : list SensorReading)
    (index : nat) (reading : SensorReading) :
  readings !! index = Some reading →
  ∃ filled,
    interpolatedReadings readings !! index = Some filled
    ∧ id filled = id reading
    ∧ deviceIdRef filled = deviceIdRef reading
    ∧ device_id_of filled = device_id_of reading
    ∧ timestamp filled = timestamp reading
    ∧ clientTimestamp filled = clientTimestamp reading
    ∧ row_clientId filled = row_clientId reading
    ∧ ∀ f, JS.nullish (column f (quantities reading)) = false →
           column f (quantities filled) = column f (quantities reading).
Proof. apply interpolatedReadings_frame. Qed.

Lemma interpolatedReadings_keeps_present_21 :
  ∃ filled,
    interpolatedReadings [Example.row 1 JS.Null JS.Null;
                          Example.row 2 (JS.int 21) JS.Null;
                          Example.row 3 (JS.int 30) JS.Null] !! 1%nat
      = Some filled
    ∧ id filled = 2 ∧ temperature (quantities filled) = JS.int 21.
Proof.
  destruct (interpolatedReadings_keeps_present
              [Example.row 1 JS.Null JS.Null;
               Example.row 2 (JS.int 21) JS.Null;
               Example.row 3 (JS.int 30) JS.Null] 1%nat
              (Example.row 2 (JS.int 21) JS.Null) eq_refl)
    as (filled & Hfilled & Hid & _ & _ & _ & _ & _ & Hkeep).
  exists filled. split; [exact Hfilled|]. split; [exact Hid|].
  apply (Hkeep Temperature). reflexivity.
Defined.



(** One pass is enough: after it no reading strictly inside the batch has a
    null or absent quantity field (a hole next to an absent value is filled
    with NaN), and a second pass changes nothing. *)
Theorem interpolatedReadings_idempotent (readings : list SensorReading) :
  (∀ index filled f,
     (0 < index)%nat → (S index < length readings)%nat →
     interpolatedReadings readings !! index = Some filled →
     JS.nullish (column f (quantities filled)) = false)
  ∧ interpolatedReadings (interpolatedReadings readings)
    = interpolatedReadings readings.
Proof.
  assert (∀ index filled f,
     (0 < index)%nat → (S index < length readings)%nat →
     interpolatedReadings readings !! index = Some filled →
     JS.nullish (column f (quantities filled)) = false) as Hfilled.
  { intros [|index] filled f Hpos Hlen Hfilled; [lia|].
    destruct (lookup_lt_is_Some_2 readings index) as [prev Hprev]; [lia|].
    destruct (lookup_lt_is_Some_2 readings (S index)) as [r Hr]; [lia|].
    destruct (lookup_lt_is_Some_2 readings (S (S index))) as [next Hnext];
      [lia|].
    destruct (interpolatedReadings_inside readings index prev r next f)
      as (filled' & Hfilled' & Hcol); [done..|].
    assert (filled' = filled) as -> by congruence.
    rewrite Hcol. unfold JS.coalesce. by destruct (JS.nullish (column f (quantities r)))
      eqn:E. }
  split; [exact Hfilled|].
  apply list_eq. intros index.
  destruct (decide (index = 0%nat)) as [->|Hfirst];
    [apply interpolatedReadings_first|].
  destruct (decide (S index = length readings)) as [Hlast|Hnotlast].
  { pose proof (interpolatedReadings_last (interpolatedReadings readings))
      as H.
    rewrite !last_lookup, !interpolatedReadings_length in H.
    by replace (pred (length readings)) with index in H by lia. }
  destruct (interpolatedReadings readings !! index) as [filled|] eqn:E.
  - pose proof (lookup_lt_Some _ _ _ E) as Hlt.
    rewrite interpolatedReadings_length in Hlt.
    destruct (interpolatedReadings_frame _ _ _ E)
      as (again & -> & Hid & Href & Hdev & Hts & Hcts & Hcl & Hkeep).
    f_equal.
    assert (quantities again = quantities filled) as Hq.
    { apply Values_ext. intros f. apply Hkeep.
      apply (Hfilled index); [lia | lia | done]. }
    destruct again, filled. simpl in *. congruence.
  - apply lookup_ge_None in E. apply lookup_ge_None.
    by rewrite interpolatedReadings_length.
Qed.

(** Evaluated on temperatures 10, null, null, 40: each hole is filled from
    its neighbours as retrieved, the other hole counting as 0, and a second
    pass returns the same batch. *)
Lemma interpolatedReadings_twice_10_null_null_40 :
  let batch := [Example.row 1 (JS.int 10) JS.Null;
                Example.row 2 JS.Null JS.Null;
                Example.row 3 JS.Null JS.Null;
                Example.row 4 (JS.int 40) JS.Null] in
  (temperature ∘ quantities) <$> interpolatedReadings batch
  = [JS.int 10; JS.int 5; JS.int 20; JS.int 40]
  ∧ (∀ filled, interpolatedReadings batch !! 2%nat = Some filled →
       JS.nullish (humidity (quantities filled)) = false)
  ∧ interpolatedReadings (interpolatedReadings batch)
    = interpolatedReadings batch.
Proof.
  intros batch. split; [by_evaluation|]. split.
  - intros filled Hfilled.
    apply (proj1 (interpolatedReadings_idempotent batch) 2%nat filled
             Humidity); [lia | simpl; lia | exact Hfilled].
  - apply (proj2 (interpolatedReadings_idempotent batch)).
Defined.

(** For a device whose total is at least 5, a retrieval whose query returns
    no row is answered 404, and one whose query returns rows is answered
    with as many rows in the same order, each carrying the id of the row
    retrieved at its place, the requested device key and no [deviceIdRef]. *)
Theorem get_readings_serves_rows (prisma : Prisma) (rnd : Draws)
    (deviceId : string) (parsedLimit : option Z) (st : Counters)
    (readings : list SensorReading) :
  sensorReading_findMany prisma deviceId (clampLimit parsedLimit)
    = Returned readings →
  5 ≤ totalFor (deviceReadingsCounter st) deviceId →
  let response := (get_readings prisma rnd deviceId parsedLimit st).1 in
  (readings = [] → response = Json404 "No data available for this device.")
  ∧ (readings ≠ [] →
     ∃ rows,
       response = Json200 rows
       ∧ length rows = length readings
       ∧ id <$> rows = id <$> readings
       ∧ timestamp <$> rows = timestamp <$> readings
       ∧ Forall (λ row, device_id_of row = Some deviceId
                        ∧ deviceIdRef row = None) rows).
Proof.
  intros Hfind Htotal. cbv zeta. unfold get_readings. rewrite Hfind.
  rewrite (proj2 (Z.ltb_ge _ _) Htotal). split.
  - by intros ->.
  - intros Hne. destruct readings as [|r rs] eqn:E; [done|].
    rewrite <- E in *. replace (length readings =? 0)%nat with false
      by (by rewrite E).
    eexists. split; [reflexivity|].
    assert (∀ {A} (g : SensorReading → A),
              (∀ r', g (withDeviceId deviceId r') = g r') →
              (∀ i r' r'', readings !! i = Some r' →
                 interpolatedReadings readings !! i = Some r'' →
                 g r'' = g r') →
              g <$> (withDeviceId deviceId <$> interpolatedReadings readings)
              = g <$> readings) as Hcol.
    { intros A g Hg Hkeep. apply list_eq. intros i.
      rewrite !list_lookup_fmap.
      destruct (readings !! i) as [r'|] eqn:Hr.
      - destruct (interpolatedReadings_frame _ _ _ Hr)
          as (filled & Hf & _). rewrite Hf. simpl.
        by rewrite Hg, (Hkeep i r' filled).
      - apply lookup_ge_None in Hr.
        rewrite (proj2 (lookup_ge_None (interpolatedReadings readings) i));
          [done|]. by rewrite interpolatedReadings_length. }
    split; [by rewrite length_fmap, interpolatedReadings_length|].
    split; [|split].
    + apply Hcol; [done|]. intros i r' r'' Hr Hr''.
      destruct (interpolatedReadings_frame _ _ _ Hr)
        as (filled & Hf & Hid & _). congruence.
    + apply Hcol; [done|]. intros i r' r'' Hr Hr''.
      destruct (interpolatedReadings_frame _ _ _ Hr)
        as (filled & Hf & _ & _ & _ & Hts & _). congruence.
    + apply Forall_fmap, Forall_forall. by intros.
Qed.

(** Evaluated: with a total of 5, an empty store gives 404 and a store with
    two rows gives rows 1 and 2 under key dev-1. *)
Lemma get_readings_serves_two_rows :
  let st := {| clientReadingsCounter := ∅;
               deviceReadingsCounter := {[ "dev-1" := {| p := 5; n := 0 |} ]}
            |} in
  let batch := [Example.row 1 (JS.int 20) JS.Null;
                Example.row 2 (JS.int 21) JS.Null] in
  (get_readings (Example.prisma_ok [] []) Example.draws "dev-1" None st).1
  = Json404 "No data available for this device."
  ∧ ∃ rows,
      (get_readings (Example.prisma_ok [] batch) Example.draws "dev-1" None
         st).1 = Json200 rows
      ∧ id <$> rows = [1; 2]
      ∧ Forall (λ row, device_id_of row = Some "dev-1"
                       ∧ deviceIdRef row = None) rows.
Proof.
  intros st batch. split.
  - apply (get_readings_serves_rows (Example.prisma_ok [] []) Example.draws
             "dev-1" None st [] eq_refl); [vm_compute; discriminate|].
    reflexivity.
  - destruct (get_readings_serves_rows (Example.prisma_ok [] batch)
                Example.draws "dev-1" None st batch eq_refl)
      as [_ Hrows]; [vm_compute; discriminate|].
    destruct Hrows as (rows & Hresp & _ & Hids & _ & Hkeys); [discriminate|].
    exists rows. split; [exact Hresp|]. split; [exact Hids|exact Hkeys].
Defined.

(** ** The earlier server and the present one *)

Lemma interpolatedReadings_complete (readings : list SensorReading) :
  Forall (λ r, ∀ f, JS.nullish (column f (quantities r)) = false) readings →
  interpolatedReadings readings = readings.
Proof.
  intros Hall. apply list_eq. intros index.
  destruct (readings !! index) as [r|] eqn:Hr.
  - destruct (interpolatedReadings_frame _ _ _ Hr)
      as (filled & -> & Hid & Href & Hdev & Hts & Hcts & Hcl & Hkeep).
    f_equal.
    assert (quantities filled = quantities r) as Hq.
    { apply Values_ext. intros f. apply Hkeep.
      by apply (proj1 (Forall_lookup _ _) Hall index r). }
    destruct filled, r. simpl in *. congruence.
  - apply lookup_ge_None. rewrite interpolatedReadings_length.
    by apply lookup_ge_None.
Qed.

(** The earlier retrieval answers 200 with every row the store returns, the
    empty batch included, and never 404. For a device whose total is at
    least 5 and a non-empty batch without a null or absent quantity field,
    the present retrieval gives the same answer and issues the same query. *)
Theorem get_readings_agrees_with_V0 (prisma : Prisma) (rnd : Draws)
    (deviceId : string) (parsedLimit : option Z) (st : Counters)
    (readings : list SensorReading) :
  sensorReading_findMany prisma deviceId (clampLimit parsedLimit)
    = Returned readings →
  (V0.get_readings prisma deviceId parsedLimit).1
  = Json200 (withDeviceId deviceId <$> readings)
  ∧ (5 ≤ totalFor (deviceReadingsCounter st) deviceId →
     readings ≠ [] →
     Forall (λ r, ∀ f, JS.nullish (column f (quantities r)) = false)
            readings →
     get_readings prisma rnd deviceId parsedLimit st
     = V0.get_readings prisma deviceId parsedLimit).
Proof.
  intros Hfind. unfold V0.get_readings, get_readings. rewrite Hfind. simpl.
  split; [done|]. intros Htotal Hne Hall.
  rewrite (proj2 (Z.ltb_ge _ _) Htotal).
  destruct readings as [|r rs] eqn:E; [done|]. rewrite <- E in *.
  replace (length readings =? 0)%nat with false by (by rewrite E).
  by rewrite interpolatedReadings_complete.
Qed.

Lemma get_readings_agrees_with_V0_on_two_rows :
  let st := {| clientReadingsCounter := ∅;
               deviceReadingsCounter := {[ "dev-1" := {| p := 5; n := 0 |} ]}
            |} in
  let complete (pk : Z) : SensorReading :=
    {| id := pk; deviceIdRef := Some 1; device_id_of := None;
       timestamp := 900000; clientTimestamp := None;
       quantities := {| temperature := JS.int 20; humidity := JS.int 40;
                        pm25 := JS.int 5; pm10 := JS.int 10;
                        co2 := JS.int 400; tvoc := JS.int 50 |};
       row_clientId := JS.IdUndefined |} in
  let prisma := Example.prisma_ok [] [complete 1; complete 2; complete 3] in
  (V0.get_readings (Example.prisma_ok [] []) "dev-1" None).1 = Json200 []
  ∧ get_readings prisma Example.draws "dev-1" None st
    = V0.get_readings prisma "dev-1" None.
Proof.
  intros st complete prisma. split.
  - apply (get_readings_agrees_with_V0 (Example.prisma_ok [] [])
             Example.draws "dev-1" None st [] eq_refl).
  - apply (get_readings_agrees_with_V0 prisma Example.draws "dev-1" None st
             [complete 1; complete 2; complete 3] eq_refl);
      [vm_compute; discriminate | discriminate |].
    repeat constructor; intros []; reflexivity.
Defined.

(** On an empty window the present ingestion hands [create] the same six
    columns as the earlier one did: whenever the present handler accepts a
    submission, the earlier one does not reject it, and with the same
    [upsert] result both issue a [create] whose data agree on the six
    quantities. They agree on the device link and on the client timestamp
    too when the body has no property named [deviceIdRef], respectively
    [clientTimestamp], which only the present handler would spread over
    them. *)
Theorem post_readings_agrees_with_V0_on_empty_window (prisma : Prisma)
    (now : Z) (body : Body) (st : Counters) (device : Device) :
  accepted body = true →
  device_upsert prisma (device_id body) = Returned device →
  sensorReading_findRecent prisma (device_id body) (now - window_ms)
    = Returned [] →
  ∃ data data0,
    (post_readings prisma now body st).2 !! 2%nat = Some (QCreate data)
    ∧ (V0.post_readings prisma body).2 !! 1%nat = Some (QCreate data0)
    ∧ (∀ f, JS.get (data_fields data) (key f)
            = JS.get (data_fields data0) (key f))
    ∧ (sensorData body !! "deviceIdRef"%string = None →
       data_deviceIdRef data = data_deviceIdRef data0)
    ∧ (sensorData body !! "clientTimestamp"%string = None →
       data_clientTimestamp data = data_clientTimestamp data0).
Proof.
  intros Hacc Hup Hfind.
  destruct (post_readings_no_recent prisma now body st device Hacc Hup Hfind)
    as (data & Hq & Hfields & Hother & Halias).
  assert (data = createData device body (sensorData body)) as Hdata.
  { rewrite post_readings_accepted in Hq by done. cbv zeta in Hq.
    rewrite Hup, Hfind in Hq. simpl in Hq.
    destruct (sensorReading_create _ _); by injection Hq as <-. }
  exists data, (V0.createData device body).
  unfold accepted, emptyPayload in Hacc.
  rewrite !andb_true_iff, negb_true_iff in Hacc.
  destruct Hacc as [[Hdev Hempty] _].
  split; [done|]. split.
  - unfold V0.post_readings. rewrite Hdev, Hup. simpl.
    replace (V0.emptyPayload body) with false.
    + by destruct (sensorReading_create _ _).
    + symmetry. unfold V0.emptyPayload.
      destruct (client_id body); [exact Hempty | exact Hempty | done].
  - split; [|split].
    + intros f.
      assert (f = Pm25 ∨ f ≠ Pm25) as [->|Hf]
        by (destruct f; auto; right; discriminate).
      * simpl. rewrite Halias. unfold JS.get. simpl.
        by rewrite !lookup_insert_ne, lookup_insert_eq by done.
      * rewrite Hother by done. unfold JS.get at 2.
        destruct f; try done; simpl;
          by rewrite ?lookup_insert_ne, lookup_insert_eq by done.
    + intros Hnone. rewrite Hdata. simpl. by rewrite Hnone.
    + intros Hnone. rewrite Hdata. simpl. by rewrite Hnone.
Qed.

Lemma post_readings_agrees_with_V0_at_21 :
  let body := Example.body (JS.int 7) {[ "temperature" := JS.int 21 ]} in
  ∃ data data0,
    (post_readings (Example.prisma_ok [] []) Example.now body no_counters).2
      !! 2%nat = Some (QCreate data)
    ∧ (V0.post_readings (Example.prisma_ok [] []) body).2 !! 1%nat
      = Some (QCreate data0)
    ∧ JS.get (data_fields data) "pm25" = JS.get (data_fields data0) "pm25"
    ∧ data_deviceIdRef data = data_deviceIdRef data0.
Proof.
  intros body.
  destruct (post_readings_agrees_with_V0_on_empty_window
              (Example.prisma_ok [] []) Example.now body no_counters
              Example.device) as (data & data0 & H1 & H0 & Hf & Href & _);
    [vm_compute; reflexivity | reflexivity | reflexivity |].
  exists data, data0. split; [exact H1|]. split; [exact H0|].
  split; [exact (Hf Pm25)|]. apply Href. vm_compute. reflexivity.
Defined.

(** ** The two defects in general *)


(** Evaluated: temperatures null, null, 30 give 15 in the middle. *)
Lemma interpolatedReadings_null_null_30 :
  ∃ filled,
    interpolatedReadings [Example.row 1 JS.Null JS.Null;
                          Example.row 2 JS.Null JS.Null;
                          Example.row 3 (JS.int 30) JS.Null] !! 1%nat
      = Some filled
    ∧ temperature (quantities filled) = JS.int 15.
Proof.
  destruct (interpolatedReadings_null_neighbour
              [Example.row 1 JS.Null JS.Null;
               Example.row 2 JS.Null JS.Null;
               Example.row 3 (JS.int 30) JS.Null] 0%nat
              (Example.row 1 JS.Null JS.Null)
              (Example.row 2 JS.Null JS.Null)
              (Example.row 3 (JS.int 30) JS.Null)
              Temperature (Qc_of_Z 30)
              eq_refl eq_refl eq_refl eq_refl eq_refl eq_refl)
    as (filled & Hfilled & Hhalf).
  exists filled. split; [exact Hfilled|].
  simpl in Hhalf. rewrite Hhalf. unfold JS.int. do 2 f_equal.
  apply Qc_is_canon. reflexivity.
Defined.

(** ** Names inherited from [Object.prototype] *)

Lemma updatePNCounter_keeps_inherited_out (d : gmap string PN)
    (a k : string) (x : bool) :
  JS.inherited k = true → d !! k = None →
  updatePNCounter a x d !! k = None.
Proof.
  intros Hk Hnone. destruct (decide (a = k)) as [->|Hne].
  - rewrite updatePNCounter_inherited; [done|].
    unfold JS.read. case_bool_decide; [done|]. by rewrite Hnone, Hk.
  - by rewrite updatePNCounter_lookup_ne.
Qed.

Lemma ingest_all_keeps_inherited_out (requests : list (Prisma * Z * Body))
    (st : Counters) (k : string) :
  JS.inherited k = true → deviceReadingsCounter st !! k = None →
  deviceReadingsCounter (ingest_all requests st) !! k = None.
Proof.
  intros Hk. unfold ingest_all. revert st.
  induction requests as [|[[prisma now] body] rs IH]; intros st Hnone;
    [done|].
  simpl. apply IH. rewrite post_readings_counters_eq.
  destruct (accepted body); [|done]. simpl.
  by apply updatePNCounter_keeps_inherited_out.
Qed.

(** A device named like a property inherited from [Object.prototype] is
    never counted: from a fresh process, whatever requests were ingested,
    its total is 0 and a retrieval for it whose store read returns is
    answered with simulated data. *)
Theorem inherited_device_name_is_always_simulated
    (requests : list (Prisma * Z * Body)) (prisma : Prisma) (rnd : Draws)
    (deviceId : string) (parsedLimit : option Z)
    (readings : list SensorReading) :
  JS.inherited deviceId = true →
  sensorReading_findMany prisma deviceId (clampLimit parsedLimit)
    = Returned readings →
  let st := ingest_all requests no_counters in
  totalFor (deviceReadingsCounter st) deviceId = 0
  ∧ (get_readings prisma rnd deviceId parsedLimit st).1
    = Json200Simulation "Insufficient data. Switching to simulation mode."
                        (generateDummyData rnd).
Proof.
  intros Hk Hfind st.
  assert (totalFor (deviceReadingsCounter st) deviceId = 0) as Htotal.
  { unfold totalFor, JS.read. case_bool_decide; [done|].
    unfold st. rewrite ingest_all_keeps_inherited_out by done.
    by rewrite Hk. }
  split; [exact Htotal|].
  unfold get_readings. rewrite Hfind. cbv zeta. by rewrite Htotal.
Qed.

Lemma inherited_device_toString_is_simulated :
  let body :=
    {| device_id := JS.IdString "toString"; client_id := JS.IdNull;
       pm2_5 := JS.Undefined; client_timestamp := None;
       sensorData := {[ "co2" := JS.int 400 ]} |} in
  let request := (Example.prisma_ok [] [], Example.now, body) in
  accepted body = true
  ∧ (get_readings (Example.prisma_ok [] [Example.row 1 JS.Null JS.Null])
       Example.draws "toString" None
       (ingest_all (replicate 6 request) no_counters)).1
    = Json200Simulation "Insufficient data. Switching to simulation mode."
                        (generateDummyData Example.draws).
Proof.
  intros body request. split; [vm_compute; reflexivity|].
  apply (inherited_device_name_is_always_simulated (replicate 6 request)
           (Example.prisma_ok [] [Example.row 1 JS.Null JS.Null])
           Example.draws "toString" None [Example.row 1 JS.Null JS.Null]);
    reflexivity.
Defined.

Lemma recordings_of_inherited (calls : list string) (k : string) :
  JS.inherited k = true → k ≠ "__proto__"%string →
  let entry := foldl (λ c' id, updateGCounter id c') ∅ calls !! k in
  let N := calls_of k calls in
  (N = 0%nat ∧ entry = None)
  ∨ (N = 1%nat ∧ entry = Some CountNaN)
  ∨ ((2 ≤ N)%nat ∧ entry = Some (Count (N - 1))).
Proof.
  intros Hk Hp. cbv zeta. induction calls as [|id calls IH] using rev_ind.
  - left. by split.
  - rewrite foldl_snoc. unfold calls_of in *.
    rewrite filter_app, length_app, filter_cons, filter_nil.
    destruct (decide (id = k)) as [->|Hne]; simpl.
    + set (c := foldl _ ∅ calls) in *.
      assert (updateGCounter k c !! k
              = match c !! k with
                | None => Some CountNaN
                | Some (Count m) => Some (Count (S m))
                | Some CountNaN => Some (Count 1)
                end) as ->.
      { unfold updateGCounter, JS.read, JS.write.
        rewrite !bool_decide_eq_false_2 by done. rewrite Hk.
        destruct (c !! k) as [[[|m]|]|] eqn:E; simpl;
          repeat (rewrite ?lookup_insert_eq, ?E, ?Hk; simpl); done. }
      destruct IH as [[HN ->]|[[HN ->]|[HN ->]]].
      * right. left. split; [lia|done].
      * right. right. split; [lia|]. do 2 f_equal. lia.
      * right. right. split; [lia|]. do 2 f_equal. lia.
    + rewrite updateGCounter_lookup_ne by done. rewrite Nat.add_0_r.
      exact IH.
Qed.

(** A client named like an inherited method is counted one short: never
    recorded, it weighs the inherited function; its first recording stores
    NaN, after which it weighs 1; and recorded N times, N at least 2, it
    weighs N - 1. *)
Theorem inherited_client_name_counts_one_less (calls : list string)
    (clientId : string) :
  JS.inherited clientId = true → clientId ≠ "__proto__"%string →
  let c := foldl (λ c' id, updateGCounter id c') ∅ calls in
  let N := calls_of clientId calls in
  (N = 0%nat → weightOf c clientId = WeightObject)
  ∧ (N = 1%nat → weightOf c clientId = WeightNumber 1)
  ∧ ((2 ≤ N)%nat → weightOf c clientId = WeightNumber (N - 1)).
Proof.
  intros Hk Hp c N.
  pose proof (recordings_of_inherited calls clientId Hk Hp) as H.
  cbv zeta in H. fold c N in H.
  unfold weightOf, JS.read. rewrite bool_decide_eq_false_2 by done.
  destruct H as [[HN ->]|[[HN ->]|[HN ->]]]; rewrite ?Hk;
    (split; [|split]); intros HN'; try lia; try done.
  destruct (N - 1)%nat eqn:E; [lia|done].
Qed.

Lemma inherited_client_valueOf_recorded_four_times :
  let c := foldl (λ c' id, updateGCounter id c') ∅
             ["valueOf"; "a"; "valueOf"; "valueOf"; "valueOf"] in
  weightOf ∅ "valueOf" = WeightObject
  ∧ weightOf c "valueOf" = WeightNumber 3.
Proof.
  split.
  - apply (proj1 (inherited_client_name_counts_one_less [] "valueOf"
                    eq_refl ltac:(discriminate))).
    reflexivity.
  - apply (proj2 (proj2 (inherited_client_name_counts_one_less
                           ["valueOf"; "a"; "valueOf"; "valueOf"; "valueOf"]
                           "valueOf" eq_refl ltac:(discriminate)))).
    vm_compute. lia.
Defined.
